(** * RANSAC.fit (sklearn/linear_model/ransac.py): a shallow embedding

    The [RANSAC] object, the estimator objects and the random generators
    live in a store; [fit] is a computation in a state-and-exception monad
    over that store, written statement by statement after lines 138-234.
    The delegate estimator and the random source are the two interfaces the
    method consumes; they are type classes, and their methods and the two
    validity predicates are functions of their arguments and of the state
    of the object they are called on.

    Floats are IEEE-754 binary64 values ([spec_float]); [X] is a list of
    rows and [y] a one-dimensional array, which [atleast2d_or_csr] and
    [np.asarray] return as they are.  The store keeps a log of the calls
    that leave [fit]: it is not part of the program, and serves to state
    what is called, with what, and in what order. *)

From Stdlib Require Import ZArith String Ascii List Bool Lia.
From Stdlib Require Import Floats.SpecFloat.
From stdpp Require Import base gmap list.

Local Open Scope Z_scope.

(** ** Numbers *)

(** IEEE-754 binary64, as numpy's float64 and Python's float. *)
Module Float64.

Definition prec : Z := 53.
Definition emax : Z := 1024.

Definition inf : spec_float := S754_infinity false.
Definition nan : spec_float := S754_nan.

Definition is_finite (f : spec_float) : bool :=
  match f with
  | S754_zero _ | S754_finite _ _ _ => true
  | _ => false
  end.

(** Conversion of an integer, rounded to nearest even. *)
Definition of_int (n : Z) : spec_float := binary_normalize prec emax n 0 false.

Definition mul : spec_float -> spec_float -> spec_float := SFmul prec emax.
Definition sub : spec_float -> spec_float -> spec_float := SFsub prec emax.

(** The quotient rounded up. *)
Definition cdiv (a d : Z) : Z := if a mod d =? 0 then a / d else a / d + 1.

(** [np.ceil]: the least integral float not below the argument; zeros,
    infinities and NaN are returned as they are, and a negative argument
    above -1 gives -0.0. *)
Definition ceil (f : spec_float) : spec_float :=
  match f with
  | S754_finite s m e =>
      if 0 <=? e then f
      else
        let d := 2 ^ (- e) in
        if s then
          if Z.pos m / d =? 0 then S754_zero true
          else binary_normalize prec emax (- (Z.pos m / d)) 0 true
        else binary_normalize prec emax (cdiv (Z.pos m) d) 0 false
  | _ => f
  end.

(** Exact comparison of an integer with a float, as Python compares an
    [int] with a [float]; [None] when the float is NaN. *)
Definition compare_int (z : Z) (f : spec_float) : option comparison :=
  match f with
  | S754_nan => None
  | S754_infinity s => Some (if s then Gt else Lt)
  | S754_zero _ => Some (z ?= 0)
  | S754_finite s m e =>
      let v := if s then Z.neg m else Z.pos m in
      if 0 <=? e then Some (z ?= v * 2 ^ e)
      else Some (z * 2 ^ (- e) ?= v)
  end.

End Float64.

(** A Python number given as a parameter: an [int] or a [float]. *)
Inductive pynum : Type :=
| PyInt (z : Z)
| PyFloat (f : spec_float).

Definition num_compare (a b : pynum) : option comparison :=
  match a, b with
  | PyInt x, PyInt y => Some (x ?= y)
  | PyFloat x, PyFloat y => SFcompare x y
  | PyInt x, PyFloat y => Float64.compare_int x y
  | PyFloat x, PyInt y => option_map CompOpp (Float64.compare_int y x)
  end.

(** [a < b] and [a >= b]; both are false when a NaN is involved. *)
Definition num_lt (a b : pynum) : bool :=
  match num_compare a b with Some Lt => true | _ => false end.

Definition num_ge (a b : pynum) : bool :=
  match num_compare a b with Some Gt | Some Eq => true | _ => false end.

(** [a * n] for an integer [n] (a row count). *)
Definition num_mul_int (a : pynum) (n : Z) : pynum :=
  match a with
  | PyInt x => PyInt (x * n)
  | PyFloat f => PyFloat (Float64.mul f (Float64.of_int n))
  end.

(** [np.ceil] of a Python number is a float64. *)
Definition np_ceil (a : pynum) : spec_float :=
  match a with
  | PyInt x => Float64.of_int x
  | PyFloat f => Float64.ceil f
  end.

(** ** Exceptions and results *)

Section Exceptions.

(** [CErr]: whatever a collaborator (delegate estimator, random source)
    raises; it reaches the caller of [fit] unchanged. *)
Context {CErr : Type}.

Inductive exn : Type :=
| ValueError (msg : string)   (* raised by [fit] itself *)
| IndexError                  (* numpy: index out of bounds, mask of the wrong length *)
| BroadcastError              (* numpy: operands could not be broadcast together *)
| UnboundLocalError           (* a local read before it was bound *)
| TypeError                   (* [None] handed to the delegate *)
| Propagated (e : CErr)       (* raised inside a collaborator *)
| Dangling.                   (* a reference to no object: cannot arise in Python *)

Inductive res (A : Type) : Type :=
| Ok (a : A)
| Raise (e : exn).

End Exceptions.

Arguments exn : clear implicits.
Arguments res : clear implicits.
Arguments Ok {CErr A} a.
Arguments Raise {CErr A} e.

(** ** Arrays *)

(** A one-dimensional target array: its dtype kind character and its values
    (integer targets are held as the floats they convert to). *)
Record ndarray : Type := mk_ndarray {
  dtype_kind : ascii;
  values : list spec_float
}.

(** [np.arange(n)] and [range(n)]. *)
Definition arange (n : Z) : list Z := map Z.of_nat (seq 0 (Z.to_nat n)).

(** [a[i]] for one integer index: negative indices count from the end. *)
Definition item {A} (a : list A) (i : Z) : option A :=
  let n := Z.of_nat (length a) in
  if (0 <=? i) && (i <? n) then nth_error a (Z.to_nat i)
  else if (- n <=? i) && (i <? 0) then nth_error a (Z.to_nat (n + i))
  else None.

(** [a[idxs]] for an integer index array. *)
Fixpoint take_idxs {A} (a : list A) (idxs : list Z) : option (list A) :=
  match idxs with
  | [] => Some []
  | i :: rest =>
      match item a i, take_idxs a rest with
      | Some x, Some xs => Some (x :: xs)
      | _, _ => None
      end
  end.

(** [a[mask]] for a boolean mask, which must have the length of [a]. *)
Fixpoint compress {A} (a : list A) (mask : list bool) : option (list A) :=
  match a, mask with
  | [], [] => Some []
  | x :: a', b :: mask' =>
      option_map (fun r => if b then x :: r else r) (compress a' mask')
  | _, _ => None
  end.

(** [a - b] elementwise; an operand of length one is broadcast. *)
Definition np_sub (a b : list spec_float) : option (list spec_float) :=
  if (length a =? length b)%nat then
    Some (map (fun p => Float64.sub (fst p) (snd p)) (combine a b))
  else match a, b with
       | [x], _ => Some (map (fun v => Float64.sub x v) b)
       | _, [v] => Some (map (fun x => Float64.sub x v) a)
       | _, _ => None
       end.

(** [np.sum] of a boolean array. *)
Definition np_sum (mask : list bool) : Z :=
  fold_right (fun (b : bool) acc => if b then acc + 1 else acc) 0 mask.

(** ** The interfaces [fit] consumes *)

(** The delegate estimator: [Est] is the whole state of an estimator object
    (constructor parameters and fitted coefficients).  A method either
    returns or raises; [est_fit] returns the state the object is left in. *)
Class Estimator (Est Row CErr : Type) : Type := {
  (** the state of the object [sklearn.base.clone] builds from a prototype *)
  copy_params : Est -> Est;
  (** the state of a newly constructed [LinearRegression()] *)
  LinearRegression : Est;
  est_fit : Est -> list Row -> ndarray -> CErr + Est;
  est_predict : Est -> list Row -> CErr + list spec_float;
  est_score : Est -> list Row -> ndarray -> CErr + spec_float
}.

(** The random source: [Rng] is the internal state of a generator. *)
Class RandomSource (Rng CErr : Type) : Type := {
  (** [np.random.RandomState(seed)] *)
  RandomState : Z -> Rng;
  (** [randint(low, high, size)]: the draw and the state it leaves *)
  randint : Rng -> Z -> Z -> pynum -> (CErr + list Z) * Rng
}.

(** Objects are referred to by their address in the store. *)
Definition loc : Type := nat.

(** The [random_state] parameter: [None], an integer seed or a generator. *)
Inductive seed_param : Type :=
| RsNone
| RsSeed (seed : Z)
| RsGen (g : loc).

(** The generator a [fit] call draws from: numpy's global one or an object. *)
Inductive rng_ref : Type :=
| GlobalRng
| RngAt (g : loc).

(** How one pass through the loop body ends. *)
Inductive control : Type :=
| CNormal      (* the body ran to its end *)
| CContinue    (* a [continue] statement *)
| CBreak.      (* the [break] statement *)

Section Model.

Context {Est Row Rng CErr : Type}.
Context {estimator : Estimator Est Row CErr}.
Context {random_source : RandomSource Rng CErr}.

(** *** The estimator object *)

(** The constructor parameters, [__init__] lines 113-121. *)
Record Params : Type := {
  base_estimator : option loc;
  min_n_samples : pynum;
  residual_threshold : spec_float;
  is_data_valid : option (list Row -> ndarray -> bool);
  is_model_valid : option (Est -> list Row -> ndarray -> bool);
  max_trials : Z;
  stop_n_inliers : pynum;
  stop_score : spec_float;
  random_state : seed_param
}.

(** A [RANSAC] object: its parameters and the attributes [fit] assigns
    ([None] while unassigned). *)
Record RANSAC : Type := {
  params : Params;
  estimator_ : option loc;
  n_trials_ : option Z;
  inlier_mask_ : option (list bool)
}.

(** *** The store *)

(** Calls that leave [fit], in the order they are made (latest first). *)
Inductive event : Type :=
| EvRandint (low high : Z) (size : pynum)
| EvIsDataValid (X : list Row) (y : ndarray)
| EvFit (X : list Row) (y : ndarray)
| EvIsModelValid (X : list Row) (y : ndarray)
| EvPredict (X : list Row)
| EvScore (X : list Row) (y : ndarray).

Record State : Type := {
  self : RANSAC;
  ests : gmap loc Est;      (* estimator objects *)
  gens : gmap loc Rng;      (* generator objects *)
  np_random : Rng;          (* numpy's global generator *)
  calls : list event
}.

Definition with_self (o : RANSAC) (st : State) : State :=
  {| self := o; ests := ests st; gens := gens st;
     np_random := np_random st; calls := calls st |}.

Definition with_ests (h : gmap loc Est) (st : State) : State :=
  {| self := self st; ests := h; gens := gens st;
     np_random := np_random st; calls := calls st |}.

Definition with_gens (h : gmap loc Rng) (st : State) : State :=
  {| self := self st; ests := ests st; gens := h;
     np_random := np_random st; calls := calls st |}.

Definition with_np_random (r : Rng) (st : State) : State :=
  {| self := self st; ests := ests st; gens := gens st;
     np_random := r; calls := calls st |}.

Definition with_call (ev : event) (st : State) : State :=
  {| self := self st; ests := ests st; gens := gens st;
     np_random := np_random st; calls := ev :: calls st |}.

(** *** The monad: a state that survives an exception *)

Definition M (A : Type) : Type := State -> res CErr A * State.

Definition ret {A} (a : A) : M A := fun st => (Ok a, st).

Definition raise {A} (e : exn CErr) : M A := fun st => (Raise e, st).

Definition bind {A B} (m : M A) (f : A -> M B) : M B :=
  fun st =>
    match m st with
    | (Ok a, st1) => f a st1
    | (Raise e, st1) => (Raise e, st1)
    end.

Notation "x <- m ;; k" := (bind m (fun x => k))
  (at level 100, m at next level, right associativity).
Notation "m ;; k" := (bind m (fun _ => k))
  (at level 100, right associativity).

Definition lift_option {A} (e : exn CErr) (o : option A) : M A :=
  match o with Some a => ret a | None => raise e end.

Definition lift_sum {A} (r : CErr + A) : M A :=
  match r with inr a => ret a | inl e => raise (Propagated e) end.

(** [self.<name>] for a constructor parameter. *)
Definition param {A} (f : Params -> A) : M A :=
  fun st => (Ok (f (params (self st))), st).

Definition record (ev : event) : M unit :=
  fun st => (Ok tt, with_call ev st).

(** *** Estimator objects *)

Definition deref (d : loc) : M Est :=
  fun st => (match ests st !! d with
             | Some e => Ok e
             | None => Raise Dangling
             end, st).

Definition store (d : loc) (e : Est) : M unit :=
  fun st => (Ok tt, with_ests (<[d := e]> (ests st)) st).

(** A new estimator object, at an address no object has. *)
Definition new_estimator (e : Est) : M loc :=
  fun st =>
    let d := fresh (dom (ests st)) in
    (Ok d, with_ests (<[d := e]> (ests st)) st).

(** Modelled from the spec: [clone] of sklearn.base, which is not in the
    source file, gives "a fresh independent copy of the configured base
    estimator": a new object, built from the prototype's state. *)
Definition clone (p : loc) : M loc :=
  e <- deref p ;;
  new_estimator (copy_params e).

(** [d.fit(X, y)]: the object is updated in place; when the method raises
    the object is left as it was. *)
Definition call_fit (d : loc) (X : list Row) (y : ndarray) : M unit :=
  e <- deref d ;;
  record (EvFit X y) ;;
  e' <- lift_sum (est_fit e X y) ;;
  store d e'.

Definition call_predict (d : loc) (X : list Row) : M (list spec_float) :=
  e <- deref d ;;
  record (EvPredict X) ;;
  lift_sum (est_predict e X).

Definition call_score (d : loc) (X : list Row) (y : ndarray) : M spec_float :=
  e <- deref d ;;
  record (EvScore X y) ;;
  lift_sum (est_score e X y).

(** *** Generators *)

(** Modelled from the spec: [check_random_state] of sklearn.utils, which is
    not in the source file, turns "the configured seed (integer or reusable
    generator)" into a generator: the global one for [None], a new one for
    a seed, the given one for a generator. *)
Definition check_random_state (seed : seed_param) : M rng_ref :=
  match seed with
  | RsNone => ret GlobalRng
  | RsSeed z =>
      fun st =>
        let g := fresh (dom (gens st)) in
        (Ok (RngAt g), with_gens (<[g := RandomState z]> (gens st)) st)
  | RsGen g =>
      fun st => (match gens st !! g with
                 | Some _ => Ok (RngAt g)
                 | None => Raise Dangling
                 end, st)
  end.

(** The state of the generator a reference denotes. *)
Definition rng_state (r : rng_ref) (st : State) : option Rng :=
  match r with
  | GlobalRng => Some (np_random st)
  | RngAt g => gens st !! g
  end.

Definition set_rng_state (r : rng_ref) (s : Rng) (st : State) : State :=
  match r with
  | GlobalRng => with_np_random s st
  | RngAt g => with_gens (<[g := s]> (gens st)) st
  end.

(** [r.randint(low, high, size)]: the generator advances in place. *)
Definition rng_randint (r : rng_ref) (low high : Z) (size : pynum)
  : M (list Z) :=
  fun st =>
    match rng_state r st with
    | None => (Raise Dangling, st)
    | Some s =>
        let out := randint s low high size in
        (match fst out with inr idxs => Ok idxs | inl e => Raise (Propagated e) end,
         with_call (EvRandint low high size) (set_rng_state r (snd out) st))
    end.

(** *** Assignments to the fitted attributes *)

Definition set_estimator_ (d : loc) : M unit :=
  fun st =>
    (Ok tt, with_self {| params := params (self st); estimator_ := Some d;
                         n_trials_ := n_trials_ (self st);
                         inlier_mask_ := inlier_mask_ (self st) |} st).

Definition set_n_trials_ (n : Z) : M unit :=
  fun st =>
    (Ok tt, with_self {| params := params (self st);
                         estimator_ := estimator_ (self st);
                         n_trials_ := Some n;
                         inlier_mask_ := inlier_mask_ (self st) |} st).

Definition set_inlier_mask_ (m : list bool) : M unit :=
  fun st =>
    (Ok tt, with_self {| params := params (self st);
                         estimator_ := estimator_ (self st);
                         n_trials_ := n_trials_ (self st);
                         inlier_mask_ := Some m |} st).

(** *** fit, lines 138-234 *)

(** [X.shape[0]]. *)
Definition shape0 (X : list Row) : Z := Z.of_nat (length X).

(** [y[idxs]]. *)
Definition take_y (y : ndarray) (idxs : list Z) : option ndarray :=
  option_map (mk_ndarray (dtype_kind y)) (take_idxs (values y) idxs).

(** The local variables the loop assigns. *)
Record Locals : Type := {
  n_trials : option Z;               (* unbound before the first pass *)
  best_n_inliers : Z;
  best_score : spec_float;
  best_inlier_mask : option (list bool);
  best_inlier_X : option (list Row);
  best_inlier_y : option ndarray
}.

(** Lines 155-159. *)
Definition initial : Locals :=
  {| n_trials := None; best_n_inliers := 0; best_score := Float64.inf;
     best_inlier_mask := None; best_inlier_X := None; best_inlier_y := None |}.

Definition bind_n_trials (i : Z) (ls : Locals) : Locals :=
  {| n_trials := Some i; best_n_inliers := best_n_inliers ls;
     best_score := best_score ls; best_inlier_mask := best_inlier_mask ls;
     best_inlier_X := best_inlier_X ls; best_inlier_y := best_inlier_y ls |}.

(** Lines 214-218. *)
Definition save_best (ls : Locals) (n : Z) (score : spec_float)
    (mask : list bool) (iX : list Row) (iy : ndarray) : Locals :=
  {| n_trials := n_trials ls; best_n_inliers := n; best_score := score;
     best_inlier_mask := Some mask; best_inlier_X := Some iX;
     best_inlier_y := Some iy |}.

(** Lines 138-143. *)
Definition resolve_estimator (y : ndarray) : M loc :=
  configured <- param base_estimator ;;
  match configured with
  | Some p => clone p
  | None =>
      if Ascii.eqb (dtype_kind y) "f"
      then new_estimator LinearRegression
      else raise (ValueError "`base_estimator` not specified.")
  end.

(** Lines 145-151. *)
Definition resolve_min_n_samples (X : list Row) : M pynum :=
  m <- param min_n_samples ;;
  if num_lt (PyInt 0) m && num_lt m (PyInt 1)
  then ret (PyFloat (np_ceil (num_mul_int m (shape0 X))))
  else if num_ge m (PyInt 1)
  then ret m
  else raise (ValueError "Value for `min_n_samples` must be scalar and positive.").

(** Line 195: fewer inliers than the best. *)
Definition fewer_inliers (ls : Locals) (n : Z) : bool :=
  n <? best_n_inliers ls.

(** Lines 209-210: as many inliers as the best and a worse score. *)
Definition same_inliers_worse_score (ls : Locals) (n : Z) (score : spec_float)
  : bool :=
  (n =? best_n_inliers ls) && SFltb score (best_score ls).

(** Lines 199-201: the rows the mask selects. *)
Definition inlier_rows (X : list Row) (y : ndarray) (sample_idxs : list Z)
    (mask : list bool) : option (list Row * ndarray) :=
  match compress sample_idxs mask with
  | None => None
  | Some rsample_inlier_idxs =>
      match take_idxs X rsample_inlier_idxs, take_y y rsample_inlier_idxs with
      | Some iX, Some iy => Some (iX, iy)
      | _, _ => None
      end
  end.

Section Trial.

(** The dataset (after [atleast2d_or_csr] and [np.asarray], which leave a
    two-dimensional [X] and an array [y] as they are) and the locals that
    are fixed before the loop: the delegate [base_estimator], the resolved
    [min_n_samples], the generator [random_state], [n_samples] and
    [sample_idxs]. *)
Variables (X : list Row) (y : ndarray).
Variables (d : loc) (k : pynum) (g : rng_ref).
Variables (n_samples : Z) (sample_idxs : list Z).

(** Lines 171-173. *)
Definition draw_sample : M (list Row * ndarray) :=
  random_idxs <- rng_randint g 0 n_samples k ;;
  rsample_X <- lift_option IndexError (take_idxs X random_idxs) ;;
  rsample_y <- lift_option IndexError (take_y y random_idxs) ;;
  ret (rsample_X, rsample_y).

(** Line 176: true when the sample is to be skipped. *)
Definition data_gate : M bool :=
  v <- param is_data_valid ;;
  match v with
  | None => ret false
  | Some is_valid => record (EvIsDataValid X y) ;; ret (negb (is_valid X y))
  end.

(** Lines 183-184: true when the sample is to be skipped. *)
Definition model_gate (rsample_X : list Row) (rsample_y : ndarray) : M bool :=
  v <- param is_model_valid ;;
  match v with
  | None => ret false
  | Some is_valid =>
      e <- deref d ;;
      record (EvIsModelValid rsample_X rsample_y) ;;
      ret (negb (is_valid e rsample_X rsample_y))
  end.

(** Lines 188-191: the inlier mask of the model just fitted. *)
Definition classify : M (list bool) :=
  predicted <- call_predict d X ;;
  diff <- lift_option BroadcastError (np_sub predicted (values y)) ;;
  let rsample_residuals := map SFabs diff in
  threshold <- param residual_threshold ;;
  ret (map (fun r => SFltb r threshold) rsample_residuals).

(** Lines 180-191: [None] when the model gate skips the sample. *)
Definition fit_and_classify (rsample_X : list Row) (rsample_y : ndarray)
  : M (option (list bool)) :=
  call_fit d rsample_X rsample_y ;;
  skip <- model_gate rsample_X rsample_y ;;
  if skip : bool then ret None
  else
    rsample_inlier_mask <- classify ;;
    ret (Some rsample_inlier_mask).

(** Lines 171-191: [None] when a gate skips the sample. *)
Definition evaluate : M (option (list bool)) :=
  rsample <- draw_sample ;;
  skip <- data_gate ;;
  if skip : bool then ret None
  else fit_and_classify (fst rsample) (snd rsample).

(** Lines 192-223. *)
Definition consensus (ls : Locals) (rsample_inlier_mask : list bool)
  : M (control * Locals) :=
  let rsample_n_inliers := np_sum rsample_inlier_mask in
  if fewer_inliers ls rsample_n_inliers then ret (CContinue, ls)
  else
    rows <- lift_option IndexError
              (inlier_rows X y sample_idxs rsample_inlier_mask) ;;
    let '(rsample_inlier_X, rsample_inlier_y) := rows in
    rsample_score <- call_score d rsample_inlier_X rsample_inlier_y ;;
    if same_inliers_worse_score ls rsample_n_inliers rsample_score
    then ret (CContinue, ls)
    else
      let ls' := save_best ls rsample_n_inliers rsample_score
                   rsample_inlier_mask rsample_inlier_X rsample_inlier_y in
      enough <- param stop_n_inliers ;;
      good <- param stop_score ;;
      if num_ge (PyInt (best_n_inliers ls')) enough
         || SFleb good (best_score ls')
      then ret (CBreak, ls')
      else ret (CNormal, ls').

(** The loop body, lines 170-223. *)
Definition trial (ls : Locals) : M (control * Locals) :=
  m <- evaluate ;;
  match m with
  | None => ret (CContinue, ls)
  | Some rsample_inlier_mask => consensus ls rsample_inlier_mask
  end.

(** The [for] loop of line 168 over the values [range] yields. *)
Fixpoint loop (idxs : list Z) (ls : Locals) : M Locals :=
  match idxs with
  | [] => ret ls
  | i :: rest =>
      r <- trial (bind_n_trials i ls) ;;
      match fst r with
      | CBreak => ret (snd r)
      | _ => loop rest (snd r)
      end
  end.

End Trial.

(** Lines 225-234. *)
Definition finish (d : loc) (ls : Locals) : M unit :=
  match best_inlier_mask ls with
  | None => raise (ValueError "RANSAC could not find valid consensus set.")
  | Some mask =>
      match best_inlier_X ls, best_inlier_y ls with
      | Some iX, Some iy => call_fit d iX iy
      | _, _ => raise TypeError
      end ;;
      set_estimator_ d ;;
      n <- lift_option UnboundLocalError (n_trials ls) ;;
      set_n_trials_ (n + 1) ;;
      set_inlier_mask_ mask
  end.

(** Lines 145-223, once the delegate [d] is there. *)
Definition search_with (d : loc) (X : list Row) (y : ndarray) : M Locals :=
  k <- resolve_min_n_samples X ;;
  seed <- param random_state ;;
  g <- check_random_state seed ;;
  let n_samples := shape0 X in
  let sample_idxs := arange n_samples in
  limit <- param max_trials ;;
  loop X y d k g n_samples sample_idxs (arange limit) initial.

Definition fit_with (d : loc) (X : list Row) (y : ndarray) : M unit :=
  ls <- search_with d X y ;;
  finish d ls.

Definition fit (X : list Row) (y : ndarray) : M unit :=
  d <- resolve_estimator y ;;
  fit_with d X y.

End Model.

(** ** Properties of computations *)

Section Properties.

Context {Est Row Rng CErr : Type}.
Context {estimator : Estimator Est Row CErr}.
Context {random_source : RandomSource Rng CErr}.

Local Abbreviation State := (@State Est Row Rng).
Local Abbreviation M := (@M Est Row Rng CErr).

(** Every run of [m] relates the state it starts from to the one it leaves,
    whether it returns or raises. *)
Definition preserves {A} (R : State -> State -> Prop) (m : M A) : Prop :=
  forall st, R st (snd (m st)).

(** [m] raises nothing outside [P]. *)
Definition raises_only {A} (P : exn CErr -> Prop) (m : M A) : Prop :=
  forall st e, fst (m st) = Raise e -> P e.

(** Two runs from related states give the same result and related states. *)
Definition agree {A} (R : State -> State -> Prop) (ma mb : M A) : Prop :=
  forall sa sb, R sa sb ->
    fst (ma sa) = fst (mb sb) /\ R (snd (ma sa)) (snd (mb sb)).

(** The object [self] is as it was. *)
Definition same_self (st st' : State) : Prop := self st' = self st.

(** No estimator object other than [d] has changed. *)
Definition ests_outside (d : loc) (st st' : State) : Prop :=
  forall l, l <> d -> ests st' !! l = ests st !! l.

(** The calls made since [st], all of them in [P]. *)
Definition calls_extend (P : @event Row -> Prop) (st st' : State) : Prop :=
  exists new, calls st' = new ++ calls st /\ Forall P new.


(** Two states that give two runs of the loop the same view: the same
    parameters, delegates [da] and [db] in the same state, generators [ga]
    and [gb] in the same state. *)
Definition same_view (da db : loc) (ga gb : rng_ref) (sa sb : State) : Prop :=
  params (self sa) = params (self sb)
  /\ ests sa !! da = ests sb !! db
  /\ rng_state ga sa = rng_state gb sb.

(** The model [fit] leaves in [estimator_]. *)
Definition fitted_model (st : State) : option Est :=
  match estimator_ (self st) with
  | Some d => ests st !! d
  | None => None
  end.

(** The object [fit] leaves when it returns. *)
Definition fitted (o : @RANSAC Est Row) (d : loc) (n : Z) (mask : list bool)
  : @RANSAC Est Row :=
  {| params := params o; estimator_ := Some d; n_trials_ := Some n;
     inlier_mask_ := Some mask |}.

(** An exception other than the one of line 143. *)
Definition not_line_143 (e : exn CErr) : Prop :=
  e <> ValueError "`base_estimator` not specified.".

(** A trial is accepted against [ls] when neither guard skips it. *)
Definition accepted (ls : @Locals Row) (n : Z) (score : spec_float) : bool :=
  negb (fewer_inliers ls n) && negb (same_inliers_worse_score ls n score).

(** The best state is bound as a whole, and only inside the loop. *)
Definition well_bound (ls : @Locals Row) : Prop :=
  best_inlier_mask ls <> None ->
  n_trials ls <> None /\ best_inlier_X ls <> None /\ best_inlier_y ls <> None.

End Properties.

(** ** The rest of the class: [__init__], [predict], [score] *)

Section Wrappers.

Context {Est Row Rng CErr : Type}.
Context {estimator : Estimator Est Row CErr}.
Context {random_source : RandomSource Rng CErr}.

Local Abbreviation State := (@State Est Row Rng).

(** The float 0.5. *)
Definition one_half : spec_float := S754_finite false 4503599627370496 (-53).

(** The default arguments of [__init__], lines 107-111. *)
Definition default_params : @Params Est Row :=
  {| base_estimator := None; min_n_samples := PyFloat one_half;
     residual_threshold := Float64.inf;
     is_data_valid := None; is_model_valid := None;
     max_trials := 100; stop_n_inliers := PyFloat Float64.inf;
     stop_score := Float64.inf; random_state := RsNone |}.

(** [__init__], lines 113-121: the nine parameters are stored as they are
    given, and none of the attributes of [fit] exists yet. *)
Definition __init__ (p : @Params Est Row) : @RANSAC Est Row :=
  {| params := p; estimator_ := None; n_trials_ := None;
     inlier_mask_ := None |}.

(** What [predict] and [score] raise: the AttributeError of reading an
    attribute the object does not have, or whatever the call on the
    fitted estimator raises. *)
Inductive call_exn : Type :=
| AttributeError (name : string)
| Raised (e : exn CErr).

Definition lift_res {A} (r : res CErr A) : call_exn + A :=
  match r with
  | Ok a => inr a
  | Raise e => inl (Raised e)
  end.

(** [predict], line 250: [self.estimator_.predict(X)]. *)
Definition predict (X : list Row)
  : State -> (call_exn + list spec_float) * State :=
  fun st =>
    match estimator_ (self st) with
    | None => (inl (AttributeError "estimator_"), st)
    | Some d =>
        let r := call_predict d X st in (lift_res (fst r), snd r)
    end.

(** [score], line 270: [self.estimator_.score(X, y)]. *)
Definition score (X : list Row) (y : ndarray)
  : State -> (call_exn + spec_float) * State :=
  fun st =>
    match estimator_ (self st) with
    | None => (inl (AttributeError "estimator_"), st)
    | Some d =>
        let r := call_score d X y st in (lift_res (fst r), snd r)
    end.

(** The number of [randint] calls in a log. *)
Definition is_draw (ev : @event Row) : bool :=
  match ev with
  | EvRandint _ _ _ => true
  | _ => false
  end.

Fixpoint count_draws (log : list (@event Row)) : Z :=
  match log with
  | [] => 0
  | ev :: rest => (if is_draw ev then 1 else 0) + count_draws rest
  end.

(** The best state belongs to its mask: the count is the number of inliers
    the mask marks, and the inlier rows are the rows it selects. *)
Definition best_consistent (X : list Row) (y : ndarray) (idxs : list Z)
    (ls : @Locals Row) : Prop :=
  forall mask,
    best_inlier_mask ls = Some mask ->
    best_n_inliers ls = np_sum mask
    /\ exists iX iy,
         inlier_rows X y idxs mask = Some (iX, iy)
         /\ best_inlier_X ls = Some iX /\ best_inlier_y ls = Some iy.

(** The two conditions of lines 221-222 for a trial with [n] inliers and
    the score [s]. *)
Definition stop_reached (p : @Params Est Row) (n : Z) (s : spec_float) : bool :=
  num_ge (PyInt n) (stop_n_inliers p) || SFleb (stop_score p) s.

(** An exception that is neither of the two a local left unbound would
    cause at lines 230 and 233. *)
Definition not_from_unbound (e : exn CErr) : Prop :=
  e <> UnboundLocalError /\ e <> TypeError.

(** No generator other than [g] has changed. *)
Definition rngs_outside (g : rng_ref) (st st' : State) : Prop :=
  forall r, r <> g -> rng_state r st' = rng_state r st.

(** The generator [check_random_state] gives for a [random_state]
    parameter in a store. *)
Definition drawn_from (seed : seed_param) (st : State) : rng_ref :=
  match seed with
  | RsNone => GlobalRng
  | RsSeed _ => RngAt (fresh (dom (gens st)))
  | RsGen l => RngAt l
  end.

End Wrappers.

(** ** A small instance to run the model on *)

Module Demo.

Inductive err : Type :=
| NotFitted
| EmptySample
| LowNotBelowHigh
| BadSize.

(** A delegate that predicts one level for every row: [fit] takes the first
    target of the sample, [score] counts the rows it is scored on. *)
Record const_model : Type := { level : option spec_float }.

#[export] Instance const_estimator : Estimator const_model Z err := {|
  copy_params := fun _ => {| level := None |};
  LinearRegression := {| level := None |};
  est_fit := fun _ _ y =>
    match values y with
    | [] => inl EmptySample
    | v :: _ => inr {| level := Some v |}
    end;
  est_predict := fun m X =>
    match level m with
    | None => inl NotFitted
    | Some v => inr (map (fun _ => v) X)
    end;
  est_score := fun m X _ =>
    match level m with
    | None => inl NotFitted
    | Some _ => inr (Float64.of_int (Z.of_nat (length X)))
    end
|}.

(** The number of draws a [size] argument asks for. *)
Definition size_of (k : pynum) : option nat :=
  match k with
  | PyInt z => if z <? 0 then None else Some (Z.to_nat z)
  | PyFloat (S754_zero _) => Some 0%nat
  | PyFloat (S754_finite false m e) =>
      Some (Z.to_nat (if 0 <=? e then Z.pos m * 2 ^ e else Z.pos m / 2 ^ (- e)))
  | PyFloat _ => None
  end.

(** A linear congruential generator. *)
Definition lcg_next (s : Z) : Z := (1103515245 * s + 12345) mod 2147483648.

Fixpoint lcg_draw (n : nat) (s low width : Z) : list Z * Z :=
  match n with
  | O => ([], s)
  | S n' =>
      let s' := lcg_next s in
      let r := lcg_draw n' s' low width in
      (low + (s' / 65536) mod width :: fst r, snd r)
  end.

#[export] Instance lcg_source : RandomSource Z err := {|
  RandomState := fun seed => seed mod 2147483648;
  randint := fun s low high size =>
    if high <=? low then (inl LowNotBelowHigh, s)
    else match size_of size with
         | None => (inl BadSize, s)
         | Some n =>
             let r := lcg_draw n s low (high - low) in
             (inr (fst r), snd r)
         end
|}.

Definition half : spec_float := S754_finite false 4503599627370496 (-53).

(** Five rows; the targets are 1.0 four times and 9.0 once. *)
Definition X5 : list Z := [0; 1; 2; 3; 4].

Definition y5 : ndarray :=
  mk_ndarray "f" (map Float64.of_int [1; 1; 1; 1; 9]).

Definition always_false : list Z -> ndarray -> bool := fun _ _ => false.

Definition config (base : option loc) (size : pynum) (threshold : spec_float)
    (seed : seed_param) (gate : option (list Z -> ndarray -> bool))
  : @Params const_model Z :=
  {| base_estimator := base; min_n_samples := size;
     residual_threshold := threshold;
     is_data_valid := gate; is_model_valid := None;
     max_trials := 3; stop_n_inliers := PyFloat Float64.inf;
     stop_score := Float64.inf; random_state := seed |}.

Definition unfitted (p : @Params const_model Z) : @RANSAC const_model Z :=
  {| params := p; estimator_ := None; n_trials_ := None; inlier_mask_ := None |}.

(** A store with no object but [self]. *)
Definition world (p : @Params const_model Z) (global : Z)
  : @State const_model Z Z :=
  {| self := unfitted p; ests := ∅; gens := ∅; np_random := global;
     calls := [] |}.

(** The store as lines 138-143 leave it: the delegate is at address 0. *)
Definition ready (p : @Params const_model Z) (global : Z)
  : @State const_model Z Z :=
  with_ests (<[0%nat := LinearRegression]> ∅) (world p global).

(** A store with a fitted estimator at address 3, to be configured as
    [base_estimator]. *)
Definition shop (p : @Params const_model Z) (global : Z)
  : @State const_model Z Z :=
  with_ests (<[3%nat := {| level := Some half |}]> ∅) (world p global).

(** Another store for the same configuration: an object that was fitted
    before, other objects around, other calls behind it. *)
Definition busy_shop (p : @Params const_model Z) (global : Z)
  : @State const_model Z Z :=
  {| self := {| params := p; estimator_ := Some 3%nat; n_trials_ := Some 9;
                inlier_mask_ := Some [false] |};
     ests := <[0%nat := {| level := None |}]>
               (<[3%nat := {| level := Some half |}]> ∅);
     gens := <[0%nat := 42]> ∅; np_random := global;
     calls := [EvPredict []] |}.

(** The default configuration on this data, drawing from the global
    generator. *)
Definition plain : @Params const_model Z :=
  config None (PyInt 2) half RsNone None.

(** The same with a threshold no residual is below. *)
Definition strict : @Params const_model Z :=
  config None (PyInt 2) (S754_zero false) RsNone None.

(** The same as [plain] with a data-validity predicate that is never
    satisfied, and a seed. *)
Definition gated : @Params const_model Z :=
  config None (PyInt 2) half (RsSeed 7) (Some always_false).

(** A configured base estimator, half of the rows per sample, a seed. *)
Definition seeded : @Params const_model Z :=
  config (Some 3%nat) (PyFloat half) half (RsSeed 7) None.

(** What the first pass of the loop computes under [plain]. *)
Definition mask5 : list bool := [true; true; true; true; false].
Definition inlier_X5 : list Z := [0; 1; 2; 3].
Definition inlier_y5 : ndarray := mk_ndarray "f" (map Float64.of_int [1; 1; 1; 1]).
Definition fitted5 : const_model := {| level := Some (Float64.of_int 1) |}.

(** The locals after the three passes under [plain]. *)
Definition locals3 : @Locals Z :=
  save_best (bind_n_trials 2 initial) 4 (Float64.of_int 4) mask5 inlier_X5
    inlier_y5.

End Demo.

(** ** More configurations for the small instance *)

Module Cases.

Import Demo.

(** [plain] with a model-validity predicate that is never satisfied. *)
Definition picky : @Params const_model Z :=
  {| base_estimator := None; min_n_samples := PyInt 2;
     residual_threshold := half;
     is_data_valid := None; is_model_valid := Some (fun _ _ _ => false);
     max_trials := 3; stop_n_inliers := PyFloat Float64.inf;
     stop_score := Float64.inf; random_state := RsNone |}.

(** [plain] stopping at the first accepted trial. *)
Definition eager : @Params const_model Z :=
  {| base_estimator := None; min_n_samples := PyInt 2;
     residual_threshold := half;
     is_data_valid := None; is_model_valid := None;
     max_trials := 3; stop_n_inliers := PyInt 0;
     stop_score := Float64.inf; random_state := RsNone |}.

(** [plain] with no trial allowed. *)
Definition idle : @Params const_model Z :=
  {| base_estimator := None; min_n_samples := PyInt 2;
     residual_threshold := half;
     is_data_valid := None; is_model_valid := None;
     max_trials := 0; stop_n_inliers := PyFloat Float64.inf;
     stop_score := Float64.inf; random_state := RsNone |}.

(** [plain] with the default threshold. *)
Definition lenient : @Params const_model Z :=
  config None (PyInt 2) Float64.inf RsNone None.

(** The store of [ready] with the delegate fitted to the level 1.0. *)
Definition warmed (p : @Params const_model Z) (global : Z)
  : @State const_model Z Z :=
  with_ests (<[0%nat := fitted5]> ∅) (world p global).

(** An empty dataset. *)
Definition y0 : ndarray := mk_ndarray "f" [].

(** A delegate like [const_model] whose score is always 0.5. *)
Record flat_model : Type := { flat_level : option spec_float }.

#[export] Instance flat_estimator : Estimator flat_model Z err := {|
  copy_params := fun _ => {| flat_level := None |};
  LinearRegression := {| flat_level := None |};
  est_fit := fun _ _ y =>
    match values y with
    | [] => inl EmptySample
    | v :: _ => inr {| flat_level := Some v |}
    end;
  est_predict := fun m X =>
    match flat_level m with
    | None => inl NotFitted
    | Some v => inr (map (fun _ => v) X)
    end;
  est_score := fun m _ _ =>
    match flat_level m with
    | None => inl NotFitted
    | Some _ => inr half
    end
|}.

(** The default configuration of [__init__] with three trials. *)
Definition brief : @Params flat_model Z :=
  {| base_estimator := None; min_n_samples := PyFloat one_half;
     residual_threshold := Float64.inf;
     is_data_valid := None; is_model_valid := None;
     max_trials := 3; stop_n_inliers := PyFloat Float64.inf;
     stop_score := Float64.inf; random_state := RsNone |}.

Definition flat_world (p : @Params flat_model Z) (global : Z)
  : @State flat_model Z Z :=
  {| self := __init__ p; ests := ∅; gens := ∅; np_random := global;
     calls := [] |}.

End Cases.

(** * Proofs *)

Lemma cdiv_ceiling a d :
  0 < d -> (Float64.cdiv a d - 1) * d < a <= Float64.cdiv a d * d.
Proof.
  intros Hd. unfold Float64.cdiv.
  pose proof (Z.div_mod a d ltac:(lia)) as E.
  pose proof (Z.mod_pos_bound a d Hd) as B.
  destruct (Z.eqb_spec (a mod d) 0); nia.
Qed.

Section Proofs.

Context {Est Row Rng CErr : Type}.
Context {estimator : Estimator Est Row CErr}.
Context {random_source : RandomSource Rng CErr}.

Local Abbreviation State := (@State Est Row Rng).
Local Abbreviation M := (@M Est Row Rng CErr).
Local Abbreviation Locals := (@Locals Row).

Notation "x <- m ;; k" := (bind m (fun x => k))
  (at level 100, m at next level, right associativity).
Notation "m ;; k" := (bind m (fun _ => k))
  (at level 100, right associativity).

(** ** Running a sequence *)

Lemma bind_Ok {A B} (m : M A) (f : A -> M B) st a st1 :
  m st = (Ok a, st1) -> bind m f st = f a st1.
Proof. intros E. unfold bind. now rewrite E. Qed.

Lemma bind_Raise {A B} (m : M A) (f : A -> M B) st e st1 :
  m st = (Raise e, st1) -> bind m f st = (Raise e, st1).
Proof. intros E. unfold bind. now rewrite E. Qed.

Lemma bind_cases {A B} (m : M A) (f : A -> M B) st :
  (exists a st1, m st = (Ok a, st1) /\ bind m f st = f a st1)
  \/ (exists e st1, m st = (Raise e, st1) /\ bind m f st = (Raise e, st1)).
Proof.
  unfold bind. destruct (m st) as [[a|e] st1]; [left|right]; eauto.
Qed.

(** ** Relations every step keeps *)

Lemma preserves_ret {A} (R : State -> State -> Prop) `{!Reflexive R} (a : A) :
  preserves R (ret a : M A).
Proof. intros st. simpl. reflexivity. Qed.

Lemma preserves_raise {A} (R : State -> State -> Prop) `{!Reflexive R} e :
  preserves R (raise e : M A).
Proof. intros st. simpl. reflexivity. Qed.

Lemma preserves_bind {A B} (R : State -> State -> Prop) `{!Transitive R}
    (m : M A) (f : A -> M B) :
  preserves R m -> (forall a, preserves R (f a)) -> preserves R (bind m f).
Proof.
  intros Hm Hf st. specialize (Hm st). unfold bind.
  destruct (m st) as [[a|e] st1]; simpl in *; [|exact Hm].
  transitivity st1; [exact Hm | apply Hf].
Qed.

Lemma preserves_param {A} (R : State -> State -> Prop) `{!Reflexive R}
    (f : Params -> A) :
  preserves R (param f : M A).
Proof. intros st. simpl. reflexivity. Qed.

Lemma preserves_lift_option {A} (R : State -> State -> Prop) `{!Reflexive R}
    e (o : option A) :
  preserves R (lift_option e o : M A).
Proof. destruct o; intros st; simpl; reflexivity. Qed.

Lemma preserves_lift_sum {A} (R : State -> State -> Prop) `{!Reflexive R}
    (r : CErr + A) :
  preserves R (lift_sum r : M A).
Proof. destruct r; intros st; simpl; reflexivity. Qed.

Lemma preserves_deref (R : State -> State -> Prop) `{!Reflexive R} d :
  preserves R (deref d : M Est).
Proof. intros st. simpl. reflexivity. Qed.

#[local] Instance same_self_refl : Reflexive (same_self : State -> State -> Prop).
Proof. intros st. reflexivity. Qed.

#[local] Instance same_self_trans : Transitive (same_self : State -> State -> Prop).
Proof. intros a b c Hab Hbc. unfold same_self in *. congruence. Qed.

#[local] Instance ests_outside_refl d :
  Reflexive (ests_outside d : State -> State -> Prop).
Proof. intros st l _. reflexivity. Qed.

#[local] Instance ests_outside_trans d :
  Transitive (ests_outside d : State -> State -> Prop).
Proof.
  intros a b c Hab Hbc l Hl. rewrite (Hbc l Hl). apply (Hab l Hl).
Qed.

#[local] Instance calls_extend_refl P :
  Reflexive (calls_extend P : State -> State -> Prop).
Proof. intros st. exists []. split; [reflexivity | constructor]. Qed.

#[local] Instance calls_extend_trans P :
  Transitive (calls_extend P : State -> State -> Prop).
Proof.
  intros a b c [n1 [E1 F1]] [n2 [E2 F2]]. exists (n2 ++ n1). split.
  - rewrite E2, E1. apply app_assoc.
  - apply Forall_app. split; assumption.
Qed.

(** One step of a structural proof that a computation keeps a relation. *)
Ltac keep_step :=
  lazymatch goal with
  | |- preserves _ (bind _ _) => apply preserves_bind; [ exact _ | | intros ? ]
  | |- preserves _ (ret _) => apply preserves_ret; exact _
  | |- preserves _ (raise _) => apply preserves_raise; exact _
  | |- preserves _ (param _) => apply preserves_param; exact _
  | |- preserves _ (lift_option _ _) => apply preserves_lift_option; exact _
  | |- preserves _ (lift_sum _) => apply preserves_lift_sum; exact _
  | |- preserves _ (deref _) => apply preserves_deref; exact _
  | |- preserves _ (match ?x with _ => _ end) => destruct x
  end.

(** *** [self] is assigned nowhere before the end *)

Lemma record_same_self ev : preserves same_self (record ev : M unit).
Proof. intros st. reflexivity. Qed.

Lemma store_same_self d e : preserves same_self (store d e : M unit).
Proof. intros st. reflexivity. Qed.

Lemma new_estimator_same_self e : preserves same_self (new_estimator e : M loc).
Proof. intros st. reflexivity. Qed.

Lemma rng_randint_same_self g low high size :
  preserves same_self (rng_randint g low high size : M (list Z)).
Proof.
  intros st. unfold rng_randint, same_self.
  destruct (rng_state g st); [|reflexivity]. destruct g; reflexivity.
Qed.

Lemma check_random_state_same_self seed :
  preserves same_self (check_random_state seed : M rng_ref).
Proof. intros st. destruct seed; reflexivity. Qed.

Lemma call_fit_same_self d X y : preserves same_self (call_fit d X y : M unit).
Proof.
  unfold call_fit. repeat first [keep_step | apply record_same_self
                                 | apply store_same_self].
Qed.

Lemma call_predict_same_self d X :
  preserves same_self (call_predict d X : M (list spec_float)).
Proof.
  unfold call_predict. repeat first [keep_step | apply record_same_self].
Qed.

Lemma call_score_same_self d X y :
  preserves same_self (call_score d X y : M spec_float).
Proof.
  unfold call_score. repeat first [keep_step | apply record_same_self].
Qed.

Lemma evaluate_same_self X y d k g n :
  preserves same_self (evaluate X y d k g n : M (option (list bool))).
Proof.
  unfold evaluate, fit_and_classify, draw_sample, data_gate, model_gate, classify.
  repeat first [keep_step | apply record_same_self | apply call_fit_same_self
                | apply call_predict_same_self | apply rng_randint_same_self].
Qed.

Lemma consensus_same_self X y d idxs ls mask :
  preserves same_self (consensus X y d idxs ls mask : M (control * Locals)).
Proof.
  unfold consensus.
  repeat first [keep_step | apply call_score_same_self].
Qed.

Lemma trial_same_self X y d k g n idxs ls :
  preserves same_self (trial X y d k g n idxs ls : M (control * Locals)).
Proof.
  unfold trial.
  repeat first [keep_step | apply evaluate_same_self | apply consensus_same_self].
Qed.

Lemma loop_same_self X y d k g n idxs range ls :
  preserves same_self (loop X y d k g n idxs range ls : M Locals).
Proof.
  revert ls. induction range as [|i rest IH]; intros ls; simpl.
  - keep_step.
  - repeat first [keep_step | apply trial_same_self | apply IH].
Qed.

Lemma search_with_same_self d X y :
  preserves same_self (search_with d X y : M Locals).
Proof.
  unfold search_with, resolve_min_n_samples.
  repeat first [keep_step | apply check_random_state_same_self
                | apply loop_same_self].
Qed.

Lemma resolve_estimator_same_self y :
  preserves same_self (resolve_estimator y : M loc).
Proof.
  unfold resolve_estimator, clone.
  repeat first [keep_step | apply new_estimator_same_self].
Qed.

(** ** The loop body *)

(** Splits a sequence in a hypothesis into its two outcomes; the branch
    where the head raised is closed when the hypothesis asks for a result. *)
Ltac bind_inv H :=
  match type of H with
  | context [bind ?m ?f ?st] =>
      let a := fresh "a" in
      let st1 := fresh "st" in
      let E := fresh "E" in
      let E' := fresh "E" in
      destruct (bind_cases m f st) as [(a & st1 & E & E') | (a & st1 & E & E')];
      rewrite E' in H; clear E'; [ | try discriminate H ]
  end.

Lemma consensus_fewer X y d idxs (ls : Locals) mask (st : State) :
  fewer_inliers ls (np_sum mask) = true ->
  consensus X y d idxs ls mask st = (Ok (CContinue, ls), st).
Proof. intros F. unfold consensus. now rewrite F. Qed.

Lemma call_score_run d iX iy e s (st : State) :
  ests st !! d = Some e -> est_score e iX iy = inr s ->
  call_score d iX iy st = (Ok s, with_call (EvScore iX iy) st).
Proof.
  intros Hd Hs. unfold call_score, bind, deref, record. rewrite Hd. simpl.
  now rewrite Hs.
Qed.

(** What [consensus] does with a sample that has at least as many inliers
    as the best one and whose score is [s]. *)
Lemma consensus_scored X y d idxs (ls : Locals) mask (st : State) e iX iy s :
  fewer_inliers ls (np_sum mask) = false ->
  inlier_rows X y idxs mask = Some (iX, iy) ->
  ests st !! d = Some e ->
  est_score e iX iy = inr s ->
  exists c,
    consensus X y d idxs ls mask st =
      (Ok (if same_inliers_worse_score ls (np_sum mask) s
           then (CContinue, ls)
           else (c, save_best ls (np_sum mask) s mask iX iy)),
       with_call (EvScore iX iy) st)
    /\ c <> CContinue.
Proof.
  intros F R Hd Hs. unfold consensus. rewrite F, R.
  unfold lift_option. rewrite (bind_Ok _ _ st (iX, iy) st eq_refl).
  rewrite (bind_Ok _ _ _ _ _ (call_score_run d iX iy e s st Hd Hs)).
  destruct (same_inliers_worse_score ls (np_sum mask) s).
  - exists CNormal. split; [reflexivity | discriminate].
  - unfold bind, param. simpl.
    match goal with |- context [if ?b then _ else _] => destruct b end;
      eexists; (split; [reflexivity | discriminate]).
Qed.

(** A pass that returns either leaves the locals alone or saves a sample
    with at least as many inliers as the best one had. *)
Lemma consensus_result X y d idxs (ls : Locals) mask (st : State) c ls' :
  fst (consensus X y d idxs ls mask st) = Ok (c, ls') ->
  ls' = ls
  \/ (exists s iX iy, ls' = save_best ls (np_sum mask) s mask iX iy
                     /\ best_n_inliers ls <= np_sum mask).
Proof.
  unfold consensus. intros H.
  destruct (fewer_inliers ls (np_sum mask)) eqn:F.
  { simpl in H. inversion H. now left. }
  bind_inv H. destruct a as [iX iy].
  bind_inv H.
  destruct (same_inliers_worse_score ls (np_sum mask) a).
  { simpl in H. inversion H. now left. }
  unfold bind, param in H. simpl in H.
  assert (ls' = save_best ls (np_sum mask) a mask iX iy) as ->.
  { match type of H with context [if ?b then _ else _] => destruct b end;
      simpl in H; now inversion H. }
  right. exists a, iX, iy. split; [reflexivity|].
  unfold fewer_inliers in F. lia.
Qed.

Lemma trial_result X y d k g n idxs (ls : Locals) (st : State) c ls' :
  fst (trial X y d k g n idxs ls st) = Ok (c, ls') ->
  ls' = ls
  \/ (exists s mask iX iy, ls' = save_best ls (np_sum mask) s mask iX iy
                          /\ best_n_inliers ls <= np_sum mask).
Proof.
  unfold trial. intros H. bind_inv H. destruct a as [mask|].
  - apply consensus_result in H. destruct H as [H | (s & iX & iy & H)].
    + now left.
    + right. now exists s, mask, iX, iy.
  - simpl in H. inversion H. now left.
Qed.

Lemma trial_monotone X y d k g n idxs (ls : Locals) (st : State) c ls' :
  fst (trial X y d k g n idxs ls st) = Ok (c, ls') ->
  best_n_inliers ls <= best_n_inliers ls'.
Proof.
  intros H. apply trial_result in H.
  destruct H as [-> | (s & mask & iX & iy & -> & Hle)]; simpl; lia.
Qed.

Lemma loop_monotone X y d k g n idxs range (ls : Locals) (st : State) ls' :
  fst (loop X y d k g n idxs range ls st) = Ok ls' ->
  best_n_inliers ls <= best_n_inliers ls'.
Proof.
  revert ls st. induction range as [|i rest IH]; intros ls st H; simpl in H.
  - inversion H. lia.
  - bind_inv H. destruct a as [c ls1].
    assert (best_n_inliers ls <= best_n_inliers ls1) as Hstep.
    { change (best_n_inliers ls) with (best_n_inliers (bind_n_trials i ls)).
      eapply trial_monotone. rewrite E. reflexivity. }
    destruct c; simpl in H.
    + apply IH in H. lia.
    + apply IH in H. lia.
    + inversion H. subst. lia.
Qed.

(** *** The best state is bound as a whole *)

Lemma well_bound_initial : well_bound (initial : Locals).
Proof. intros H. simpl in H. congruence. Qed.

Lemma trial_well_bound X y d k g n idxs i (ls : Locals) (st : State) c ls' :
  well_bound ls ->
  fst (trial X y d k g n idxs (bind_n_trials i ls) st) = Ok (c, ls') ->
  well_bound ls'.
Proof.
  intros W H. apply trial_result in H.
  destruct H as [-> | (s & mask & iX & iy & -> & _)]; intros Hm; simpl in *.
  - destruct (W Hm) as (_ & HX & Hy). repeat split; congruence.
  - repeat split; congruence.
Qed.

Lemma loop_well_bound X y d k g n idxs range (ls : Locals) (st : State) ls' :
  well_bound ls ->
  fst (loop X y d k g n idxs range ls st) = Ok ls' ->
  well_bound ls'.
Proof.
  revert ls st. induction range as [|i rest IH]; intros ls st W H; simpl in H.
  - inversion H. now subst.
  - bind_inv H. destruct a as [c ls1].
    assert (well_bound ls1) as W1.
    { eapply trial_well_bound; [exact W | rewrite E; reflexivity]. }
    destruct c; simpl in H.
    + eapply IH; eassumption.
    + eapply IH; eassumption.
    + inversion H. now subst.
Qed.

Lemma search_with_well_bound d X y (st : State) ls :
  fst (search_with d X y st) = Ok ls -> well_bound ls.
Proof.
  unfold search_with. intros H.
  bind_inv H. bind_inv H. bind_inv H. bind_inv H.
  eapply loop_well_bound; [apply well_bound_initial | exact H].
Qed.

(** ** The end of [fit] *)

Lemma finish_outcome d (ls : Locals) (st : State) :
  well_bound ls ->
  (exists e, fst (finish d ls st) = Raise e
             /\ self (snd (finish d ls st)) = self st)
  \/ (exists n mask,
        fst (finish d ls st) = Ok tt
        /\ n_trials ls = Some n /\ best_inlier_mask ls = Some mask
        /\ self (snd (finish d ls st)) = fitted (self st) d (n + 1) mask
        /\ ests (snd (finish d ls st)) !! d <> None).
Proof.
  intros W. unfold finish.
  destruct (best_inlier_mask ls) as [mask|] eqn:Hm.
  2: { left. eexists. split; reflexivity. }
  destruct W as (Hn & HX & Hy); [rewrite Hm; discriminate|].
  destruct (best_inlier_X ls) as [iX|]; [|congruence].
  destruct (best_inlier_y ls) as [iy|]; [|congruence].
  destruct (n_trials ls) as [n|]; [|congruence].
  pose proof (call_fit_same_self d iX iy st) as Hself.
  unfold same_self in Hself.
  destruct (call_fit d iX iy st) as [[[]|e] st1] eqn:E; simpl in Hself.
  - right. exists n, mask. rewrite (bind_Ok _ _ _ _ _ E). simpl.
    unfold fitted. rewrite Hself.
    repeat split; try reflexivity.
    unfold call_fit, bind, deref, record, store in E.
    destruct (ests st !! d); simpl in E; [|discriminate].
    destruct (est_fit _ iX iy); simpl in E; [discriminate|].
    inversion E. simpl. rewrite lookup_insert_eq. discriminate.
  - left. exists e. rewrite (bind_Raise _ _ _ _ _ E).
    split; [reflexivity | exact Hself].
Qed.

(** ** Frames *)

(** *** Only the delegate is written to *)

Lemma ests_outside_same d (st st' : State) :
  ests st' = ests st -> ests_outside d st st'.
Proof. intros E l _. now rewrite E. Qed.

Lemma record_ests_outside d ev : preserves (ests_outside d) (record ev : M unit).
Proof. intros st. now apply ests_outside_same. Qed.

Lemma store_ests_outside d e : preserves (ests_outside d) (store d e : M unit).
Proof. intros st l Hl. simpl. now rewrite lookup_insert_ne. Qed.

Lemma rng_randint_ests_outside d g low high size :
  preserves (ests_outside d) (rng_randint g low high size : M (list Z)).
Proof.
  intros st. apply ests_outside_same. unfold rng_randint.
  destruct (rng_state g st); [|reflexivity]. destruct g; reflexivity.
Qed.

Lemma check_random_state_ests_outside d seed :
  preserves (ests_outside d) (check_random_state seed : M rng_ref).
Proof. intros st. apply ests_outside_same. destruct seed; reflexivity. Qed.

Lemma set_estimator__ests_outside d d' :
  preserves (ests_outside d) (set_estimator_ d' : M unit).
Proof. intros st. now apply ests_outside_same. Qed.

Lemma set_n_trials__ests_outside d n :
  preserves (ests_outside d) (set_n_trials_ n : M unit).
Proof. intros st. now apply ests_outside_same. Qed.

Lemma set_inlier_mask__ests_outside d m :
  preserves (ests_outside d) (set_inlier_mask_ m : M unit).
Proof. intros st. now apply ests_outside_same. Qed.

Ltac ests_step d :=
  first [ keep_step | apply (record_ests_outside d) | apply (store_ests_outside d)
        | apply (rng_randint_ests_outside d)
        | apply (check_random_state_ests_outside d)
        | apply (set_estimator__ests_outside d)
        | apply (set_n_trials__ests_outside d)
        | apply (set_inlier_mask__ests_outside d) ].

Lemma call_fit_ests_outside d X y :
  preserves (ests_outside d) (call_fit d X y : M unit).
Proof. unfold call_fit. repeat ests_step d. Qed.

Lemma trial_ests_outside X y d k g n idxs ls :
  preserves (ests_outside d) (trial X y d k g n idxs ls : M (control * Locals)).
Proof.
  unfold trial, consensus, evaluate, fit_and_classify, draw_sample, data_gate,
    model_gate, classify, call_predict, call_score.
  repeat first [ests_step d | apply call_fit_ests_outside].
Qed.

Lemma loop_ests_outside X y d k g n idxs range ls :
  preserves (ests_outside d) (loop X y d k g n idxs range ls : M Locals).
Proof.
  revert ls. induction range as [|i rest IH]; intros ls; simpl.
  - keep_step.
  - repeat first [keep_step | apply trial_ests_outside | apply IH].
Qed.

Lemma fit_with_ests_outside d X y :
  preserves (ests_outside d) (fit_with d X y : M unit).
Proof.
  unfold fit_with, search_with, resolve_min_n_samples, finish.
  repeat first [ests_step d | apply loop_ests_outside
                | apply call_fit_ests_outside].
Qed.

(** *** Every draw is [randint(0, n_samples, min_n_samples)] *)

Lemma calls_extend_same P (st st' : State) :
  calls st' = calls st -> calls_extend P st st'.
Proof. intros E. exists []. split; [now rewrite E | constructor]. Qed.

Lemma calls_extend_one (P : @event Row -> Prop) ev (st st' : State) :
  calls st' = ev :: calls st -> P ev -> calls_extend P st st'.
Proof. intros E HP. exists [ev]. split; [now rewrite E | now repeat constructor]. Qed.

Lemma record_calls P ev : P ev -> preserves (calls_extend P) (record ev : M unit).
Proof. intros HP st. now apply calls_extend_one with ev. Qed.

Lemma store_calls P d e : preserves (calls_extend P) (store d e : M unit).
Proof. intros st. now apply calls_extend_same. Qed.

Lemma rng_randint_calls P g low high size :
  P (EvRandint low high size) ->
  preserves (calls_extend P) (rng_randint g low high size : M (list Z)).
Proof.
  intros HP st. unfold rng_randint.
  destruct (rng_state g st); [|now apply calls_extend_same].
  apply calls_extend_one with (EvRandint low high size); [|exact HP].
  destruct g; reflexivity.
Qed.

Lemma check_random_state_calls P seed :
  preserves (calls_extend P) (check_random_state seed : M rng_ref).
Proof. intros st. apply calls_extend_same. destruct seed; reflexivity. Qed.

Lemma new_estimator_calls P e :
  preserves (calls_extend P) (new_estimator e : M loc).
Proof. intros st. now apply calls_extend_same. Qed.

Lemma set_estimator__calls P d :
  preserves (calls_extend P) (set_estimator_ d : M unit).
Proof. intros st. now apply calls_extend_same. Qed.

Lemma set_n_trials__calls P n :
  preserves (calls_extend P) (set_n_trials_ n : M unit).
Proof. intros st. now apply calls_extend_same. Qed.

Lemma set_inlier_mask__calls P m :
  preserves (calls_extend P) (set_inlier_mask_ m : M unit).
Proof. intros st. now apply calls_extend_same. Qed.

Ltac calls_step :=
  first [ keep_step | apply record_calls; exact I | apply store_calls
        | apply rng_randint_calls; repeat split
        | apply check_random_state_calls | apply new_estimator_calls
        | apply set_estimator__calls | apply set_n_trials__calls
        | apply set_inlier_mask__calls ].




Lemma resolve_estimator_calls P y :
  preserves (calls_extend P) (resolve_estimator y : M loc).
Proof. unfold resolve_estimator, clone. repeat calls_step. Qed.

(** ** What can be raised *)

Lemma raises_only_bind {A B} (P : exn CErr -> Prop) (m : M A) (f : A -> M B) :
  raises_only P m -> (forall a, raises_only P (f a)) ->
  raises_only P (bind m f).
Proof.
  intros Hm Hf st e. unfold bind. specialize (Hm st).
  destruct (m st) as [[a|e'] st1]; simpl in *.
  - apply Hf.
  - intros [= <-]. now apply Hm.
Qed.

Lemma raises_only_total {A} (P : exn CErr -> Prop) (m : M A) :
  (forall st, exists a, fst (m st) = Ok a) -> raises_only P m.
Proof. intros H st e E. destruct (H st) as [a Ha]. congruence. Qed.

Lemma raises_only_raise {A} (P : exn CErr -> Prop) e :
  P e -> raises_only P (raise e : M A).
Proof. intros HP st e'. simpl. now intros [= <-]. Qed.

Lemma raises_only_lift_option {A} (P : exn CErr -> Prop) e (o : option A) :
  P e -> raises_only P (lift_option e o : M A).
Proof. intros HP st e'. destruct o; simpl; [discriminate | now intros [= <-]]. Qed.

Lemma raises_only_lift_sum {A} (P : exn CErr -> Prop) (r : CErr + A) :
  (forall c, P (Propagated c)) -> raises_only P (lift_sum r : M A).
Proof. intros HP st e'. destruct r; simpl; [now intros [= <-] | discriminate]. Qed.

Lemma raises_only_deref (P : exn CErr -> Prop) d :
  P Dangling -> raises_only P (deref d : M Est).
Proof.
  intros HP st e'. unfold deref. simpl.
  destruct (ests st !! d); [discriminate | now intros [= <-]].
Qed.

Lemma raises_only_rng_randint (P : exn CErr -> Prop) g low high size :
  P Dangling -> (forall c, P (Propagated c)) ->
  raises_only P (rng_randint g low high size : M (list Z)).
Proof.
  intros HD HP st e'. unfold rng_randint.
  destruct (rng_state g st); simpl; [|now intros [= <-]].
  destruct (fst (randint _ _ _ _)); [now intros [= <-] | discriminate].
Qed.

Lemma raises_only_check_random_state (P : exn CErr -> Prop) seed :
  P Dangling -> raises_only P (check_random_state seed : M rng_ref).
Proof.
  intros HD st e'. destruct seed; simpl; try discriminate.
  destruct (gens st !! g); [discriminate | now intros [= <-]].
Qed.

Ltac raise_step :=
  lazymatch goal with
  | |- raises_only _ (bind _ _) => apply raises_only_bind; [ | intros ? ]
  | |- raises_only _ (raise _) => apply raises_only_raise; discriminate
  | |- raises_only _ (lift_option _ _) => apply raises_only_lift_option; discriminate
  | |- raises_only _ (lift_sum _) => apply raises_only_lift_sum; discriminate
  | |- raises_only _ (deref _) => apply raises_only_deref; discriminate
  | |- raises_only _ (rng_randint _ _ _ _) =>
      apply raises_only_rng_randint; discriminate
  | |- raises_only _ (check_random_state _) =>
      apply raises_only_check_random_state; discriminate
  | |- raises_only _ (match ?x with _ => _ end) => destruct x
  | |- raises_only _ _ =>
      apply raises_only_total; intros ?; eexists; reflexivity
  end.

Lemma trial_raises X y d k g n idxs ls :
  raises_only not_line_143 (trial X y d k g n idxs ls : M (control * Locals)).
Proof.
  unfold trial, consensus, evaluate, fit_and_classify, draw_sample, data_gate,
    model_gate, classify, call_fit, call_predict, call_score, not_line_143.
  repeat raise_step.
Qed.

Lemma loop_raises X y d k g n idxs range ls :
  raises_only not_line_143 (loop X y d k g n idxs range ls : M Locals).
Proof.
  revert ls. induction range as [|i rest IH]; intros ls; simpl.
  - raise_step.
  - apply raises_only_bind; [apply trial_raises|]. intros r.
    destruct (fst r); first [apply IH | raise_step].
Qed.

Lemma fit_with_raises d X y :
  raises_only not_line_143 (fit_with d X y : M unit).
Proof.
  unfold fit_with, search_with, resolve_min_n_samples, finish, call_fit.
  repeat first [apply loop_raises | unfold not_line_143; raise_step].
Qed.

(** ** The steps before the loop *)

Lemma resolve_estimator_run y (st : State) :
  let d := fresh (dom (ests st)) in
  resolve_estimator y st =
    match base_estimator (params (self st)) with
    | Some p =>
        match ests st !! p with
        | Some e => (Ok d, with_ests (<[d := copy_params e]> (ests st)) st)
        | None => (Raise Dangling, st)
        end
    | None =>
        if Ascii.eqb (dtype_kind y) "f"
        then (Ok d, with_ests (<[d := LinearRegression]> (ests st)) st)
        else (Raise (ValueError "`base_estimator` not specified."), st)
    end.
Proof.
  unfold resolve_estimator, bind, param, clone, bind, deref. simpl.
  destruct (base_estimator (params (self st))) as [p|].
  - destruct (ests st !! p); reflexivity.
  - destruct (Ascii.eqb (dtype_kind y) "f"); reflexivity.
Qed.

Lemma resolve_min_n_samples_run X (st : State) :
  let m := min_n_samples (params (self st)) in
  (resolve_min_n_samples X : M pynum) st =
    (if num_lt (PyInt 0) m && num_lt m (PyInt 1)
     then Ok (PyFloat (np_ceil (num_mul_int m (shape0 X))))
     else if num_ge m (PyInt 1) then Ok m
     else Raise (ValueError "Value for `min_n_samples` must be scalar and positive."),
     st).
Proof.
  unfold resolve_min_n_samples, bind, param. simpl.
  destruct (num_lt (PyInt 0) _ && num_lt _ (PyInt 1)); [reflexivity|].
  destruct (num_ge _ (PyInt 1)); reflexivity.
Qed.

(** [fit] either stops at lines 138-143, the store untouched, or goes on
    with a delegate at an address that was free. *)
Lemma fit_cases X y (st : State) :
  (exists e, fit X y st = (Raise e, st))
  \/ (exists e0,
        let d := fresh (dom (ests st)) in
        fit X y st = fit_with d X y (with_ests (<[d := e0]> (ests st)) st)).
Proof.
  unfold fit, bind. rewrite resolve_estimator_run.
  destruct (base_estimator (params (self st))) as [p|].
  - destruct (ests st !! p) as [e|]; [right; now exists (copy_params e) | left; eauto].
  - destruct (Ascii.eqb (dtype_kind y) "f"); [right; now exists LinearRegression | left; eauto].
Qed.

Lemma fit_with_outcome d X y (st : State) :
  (exists e, fst (fit_with d X y st) = Raise e
             /\ self (snd (fit_with d X y st)) = self st)
  \/ (exists n mask,
        fst (fit_with d X y st) = Ok tt
        /\ self (snd (fit_with d X y st)) = fitted (self st) d n mask
        /\ ests (snd (fit_with d X y st)) !! d <> None).
Proof.
  unfold fit_with.
  pose proof (search_with_same_self d X y st) as Hs. unfold same_self in Hs.
  pose proof (search_with_well_bound d X y st) as Hw.
  destruct (search_with d X y st) as [[ls|e] st1] eqn:E; simpl in *.
  - rewrite (bind_Ok _ _ _ _ _ E).
    destruct (finish_outcome d ls st1 (Hw ls eq_refl))
      as [(e & H1 & H2) | (n & mask & H1 & _ & _ & H2 & H3)].
    + left. exists e. split; [exact H1 | congruence].
    + right. exists (n + 1), mask. rewrite <- Hs. auto.
  - rewrite (bind_Raise _ _ _ _ _ E). left. exists e. auto.
Qed.

(** ** The comparison policy *)

Lemma accepted_iff (ls : Locals) n s :
  accepted ls n s = true <->
  ~ (n < best_n_inliers ls
     \/ (n = best_n_inliers ls /\ SFltb s (best_score ls) = true)).
Proof.
  unfold accepted, fewer_inliers, same_inliers_worse_score.
  destruct (Z.ltb_spec n (best_n_inliers ls));
    destruct (Z.eqb_spec n (best_n_inliers ls));
    destruct (SFltb s (best_score ls)); simpl; split; intros Hacc;
    try discriminate; try reflexivity;
    first [ intros [?|[? ?]]; (lia || congruence)
          | exfalso; apply Hacc;
            first [ left; lia | right; split; [lia | reflexivity] ] ].
Qed.

Lemma SFltb_inf s :
  SFltb s Float64.inf = false <-> s = Float64.inf \/ s = Float64.nan.
Proof.
  unfold SFltb, Float64.inf, Float64.nan.
  destruct s as [[]|[]| |[] m e]; simpl; split;
    try discriminate; try reflexivity; auto;
    intros [H|H]; discriminate H.
Qed.


(** C2, amended.  Against the initial best state (no inlier, score +inf) a
    trial is accepted exactly when it has at least one inlier, whatever its
    score, or has no inlier and a score that is not below +inf, that is
    +inf or NaN: a trial without inliers and with a finite score is
    skipped. *)
Theorem initial_acceptance n s :
  accepted (initial : Locals) n s = true <->
  0 < n \/ (n = 0 /\ (s = Float64.inf \/ s = Float64.nan)).
Proof.
  rewrite accepted_iff. simpl. rewrite <- SFltb_inf.
  destruct (SFltb s Float64.inf); split.
  - intros H. destruct (Z.lt_trichotomy n 0) as [?|[?|?]]; try tauto.
  - intros [?|[_ ?]] [?|[? _]]; try lia; discriminate.
  - intros H. destruct (Z.lt_trichotomy n 0) as [?|[?|?]]; tauto.
  - intros [?|[? _]] [?|[? ?]]; try lia; discriminate.
Qed.

(** C7. A pass through the loop body that returns leaves a best inlier
    count at least as large as the one it found, and so does every run of
    the loop. *)
Theorem best_n_inliers_never_decreases X y d k g n idxs :
  (forall (ls : Locals) (st : State) c ls',
      fst (trial X y d k g n idxs ls st) = Ok (c, ls') ->
      best_n_inliers ls <= best_n_inliers ls')
  /\ (forall range (ls : Locals) (st : State) ls',
        fst (loop X y d k g n idxs range ls st) = Ok ls' ->
        best_n_inliers ls <= best_n_inliers ls').
Proof.
  split.
  - intros ls st c ls'. apply trial_monotone.
  - intros range ls st ls'. apply loop_monotone.
Qed.

(** ** [fit] as a whole *)

Lemma fresh_free (st : State) : ests st !! fresh (dom (ests st)) = None.
Proof. apply not_elem_of_dom. apply is_fresh. Qed.

Lemma bind_assoc {A B C} (m : M A) (f : A -> M B) (h : B -> M C) st :
  bind (bind m f) h st = bind m (fun a => bind (f a) h) st.
Proof. unfold bind. destruct (m st) as [[a|e] st1]; reflexivity. Qed.


(** C10. When [fit] raises, whatever it raises, the object is exactly as it
    was: none of [estimator_], [n_trials_], [inlier_mask_] is assigned.
    When it returns, the three are assigned together, [estimator_] to an
    estimator object that exists. *)
Theorem failed_fit_assigns_nothing X y (st : State) :
  (forall e, fst (fit X y st) = Raise e -> self (snd (fit X y st)) = self st)
  /\ (fst (fit X y st) = Ok tt ->
      exists d n mask,
        self (snd (fit X y st)) = fitted (self st) d n mask
        /\ ests (snd (fit X y st)) !! d <> None).
Proof.
  destruct (fit_cases X y st) as [(e' & ->) | (e0 & ->)].
  { split; [reflexivity | discriminate]. }
  match goal with |- context [fit_with ?d X y ?s] =>
    destruct (fit_with_outcome d X y s)
      as [(e & H1 & H2) | (n & mask & H1 & H2 & H3)] end.
  - split; [intros ? _; exact H2 | congruence].
  - split; [congruence | intros _; eauto].
Qed.

Lemma resolve_estimator_calls_eq y (st : State) :
  calls (snd (resolve_estimator y st)) = calls st.
Proof.
  rewrite resolve_estimator_run.
  destruct (base_estimator _); [destruct (ests st !! _) | destruct (Ascii.eqb _ _)];
    reflexivity.
Qed.




(** C6. [fit] raises the ValueError of line 143 exactly when no base
    estimator is configured and the targets are not of a floating-point
    dtype, and then nothing at all has happened.  With no base estimator and
    floating-point targets the call goes on with a new object in the state
    of [LinearRegression()]; with a base estimator it goes on with a new
    object, distinct from the configured one, built by [clone] from it. *)
Theorem estimator_resolved X y (st : State) :
  let d := fresh (dom (ests st)) in
  ests st !! d = None
  /\ (fst (fit X y st) = Raise (ValueError "`base_estimator` not specified.")
      <-> base_estimator (params (self st)) = None
          /\ dtype_kind y <> "f"%char)
  /\ (base_estimator (params (self st)) = None ->
      dtype_kind y <> "f"%char ->
      fit X y st = (Raise (ValueError "`base_estimator` not specified."), st))
  /\ (base_estimator (params (self st)) = None ->
      dtype_kind y = "f"%char ->
      fit X y st =
        fit_with d X y (with_ests (<[d := LinearRegression]> (ests st)) st))
  /\ (forall p e,
        base_estimator (params (self st)) = Some p ->
        ests st !! p = Some e ->
        d <> p
        /\ fit X y st =
             fit_with d X y (with_ests (<[d := copy_params e]> (ests st)) st)).
Proof.
  cbv zeta. split; [apply fresh_free|].
  pose proof (resolve_estimator_run y st) as R. cbv zeta in R.
  pose proof (fit_with_raises (fresh (dom (ests st))) X y) as Hnot.
  unfold raises_only, not_line_143 in Hnot.
  destruct (base_estimator (params (self st))) as [p|] eqn:Hb.
  - destruct (ests st !! p) as [e|] eqn:Hl.
    + assert (fit X y st =
              fit_with (fresh (dom (ests st))) X y
                (with_ests (<[fresh (dom (ests st)) := copy_params e]> (ests st)) st))
        as Hfit by (unfold fit; now rewrite (bind_Ok _ _ _ _ _ R)).
      split; [split|split; [|split]].
      * intros H. rewrite Hfit in H. now apply Hnot in H.
      * intros [[=] _].
      * discriminate.
      * discriminate.
      * intros p' e' [= <-] Hl'. split.
        -- intros Heq. rewrite <- Heq, fresh_free in Hl. discriminate.
        -- now replace e' with e by congruence.
    + assert (fit X y st = (Raise Dangling, st)) as Hfit
        by (unfold fit; now rewrite (bind_Raise _ _ _ _ _ R)).
      split; [split|split; [|split]].
      * rewrite Hfit. discriminate.
      * intros [[=] _].
      * discriminate.
      * discriminate.
      * intros p' e' [= <-] Hl'. congruence.
  - destruct (Ascii.eqb_spec (dtype_kind y) "f") as [Hk|Hk].
    + assert (fit X y st =
              fit_with (fresh (dom (ests st))) X y
                (with_ests (<[fresh (dom (ests st)) := LinearRegression]> (ests st)) st))
        as Hfit by (unfold fit; now rewrite (bind_Ok _ _ _ _ _ R)).
      split; [split|split; [|split]].
      * intros H. rewrite Hfit in H. now apply Hnot in H.
      * intros [_ H]. contradiction.
      * intros _ H. contradiction.
      * intros _ _. exact Hfit.
      * discriminate.
    + assert (fit X y st =
              (Raise (ValueError "`base_estimator` not specified."), st))
        as Hfit by (unfold fit; now rewrite (bind_Raise _ _ _ _ _ R)).
      split; [split|split; [|split]].
      * intros _. now split.
      * intros _. now rewrite Hfit.
      * intros _ _. exact Hfit.
      * intros _ H. contradiction.
      * discriminate.
Qed.

(** ** The data-validity gate *)

Lemma draw_sample_Ok X y g n k (st st1 : State) sample :
  draw_sample X y k g n st = (Ok sample, st1) ->
  calls st1 = EvRandint 0 n k :: calls st
  /\ self st1 = self st /\ ests st1 = ests st
  /\ rng_state g st1 <> None.
Proof.
  unfold draw_sample. intros H.
  unfold bind at 1 in H. unfold rng_randint in H.
  destruct (rng_state g st) as [s|] eqn:Hg; [|discriminate].
  set (st1' := with_call _ _) in H.
  assert (st1 = st1') as ->.
  { destruct (fst (randint s 0 n k)); [discriminate|].
    unfold bind, lift_option in H.
    destruct (take_idxs X l); simpl in H; [|discriminate].
    destruct (take_y y l); simpl in H; [|discriminate].
    now inversion H. }
  subst st1'. destruct g; simpl; repeat split; try discriminate.
  rewrite lookup_insert_eq. discriminate.
Qed.

Lemma data_gate_run X y (st : State) p :
  is_data_valid (params (self st)) = Some p ->
  (data_gate X y : M bool) st =
    (Ok (negb (p X y)), with_call (EvIsDataValid X y) st).
Proof. intros Hp. unfold data_gate, bind, param. simpl. now rewrite Hp. Qed.

Lemma trial_through_gate X y d k g n idxs (ls : Locals) (st st1 : State) p sample :
  is_data_valid (params (self st)) = Some p ->
  draw_sample X y k g n st = (Ok sample, st1) ->
  trial X y d k g n idxs ls st =
    if p X y
    then bind (fit_and_classify X y d (fst sample) (snd sample))
           (fun m => match m with
                     | None => ret (CContinue, ls)
                     | Some mask => consensus X y d idxs ls mask
                     end)
           (with_call (EvIsDataValid X y) st1)
    else (Ok (CContinue, ls), with_call (EvIsDataValid X y) st1).
Proof.
  intros Hp Hd. destruct (draw_sample_Ok _ _ _ _ _ _ _ _ Hd) as (_ & Hs & _).
  unfold trial, evaluate. rewrite bind_assoc, (bind_Ok _ _ _ _ _ Hd).
  rewrite bind_assoc.
  rewrite (bind_Ok _ _ _ _ _ (data_gate_run X y st1 p ltac:(now rewrite Hs))).
  destruct (p X y); reflexivity.
Qed.

Lemma after_gate_calls X y d idxs (ls : Locals) rX ry :
  preserves (calls_extend (fun _ => True))
    (bind (fit_and_classify X y d rX ry)
       (fun m => match m with
                 | None => ret (CContinue, ls)
                 | Some mask => consensus X y d idxs ls mask
                 end) : M (control * Locals)).
Proof.
  unfold fit_and_classify, consensus, model_gate, classify, call_fit,
    call_predict, call_score.
  repeat calls_step.
Qed.

(** C3. When a data-validity predicate is configured, a pass whose draw
    succeeded calls it on the whole of [X] and [y], right after the draw and
    before any other call of the pass (the delegate's [fit] among them).
    When it answers false the pass ends there with a [continue]: no other
    call is made, the locals and the estimator objects are as they were,
    and the loop goes on with the remaining indices, one fewer, without a
    look at the stop conditions. *)
Theorem data_validity_gate X y d k g n idxs i rest (ls : Locals)
    (st st1 : State) p sample :
  is_data_valid (params (self st)) = Some p ->
  draw_sample X y k g n st = (Ok sample, st1) ->
  let st2 := with_call (EvIsDataValid X y) st1 in
  calls st2 = EvIsDataValid X y :: EvRandint 0 n k :: calls st
  /\ calls_extend (fun _ => True) st2
       (snd (trial X y d k g n idxs (bind_n_trials i ls) st))
  /\ (p X y = false ->
      trial X y d k g n idxs (bind_n_trials i ls) st =
        (Ok (CContinue, bind_n_trials i ls), st2)
      /\ ests st2 = ests st /\ self st2 = self st
      /\ loop X y d k g n idxs (i :: rest) ls st =
           loop X y d k g n idxs rest (bind_n_trials i ls) st2).
Proof.
  intros Hp Hd st2.
  destruct (draw_sample_Ok _ _ _ _ _ _ _ _ Hd) as (Hc & Hs & He & _).
  pose proof (trial_through_gate X y d k g n idxs (bind_n_trials i ls)
                st st1 p sample Hp Hd) as Ht.
  split; [subst st2; simpl; now rewrite Hc|]. split.
  - rewrite Ht. destruct (p X y); [apply after_gate_calls | reflexivity].
  - intros Hf. rewrite Hf in Ht. repeat split; try assumption.
    simpl. now rewrite (bind_Ok _ _ _ _ _ Ht).
Qed.

(** ** A loop in which no trial is accepted *)

Lemma repeat_shift {A} (u : list A) m :
  concat (repeat u m) ++ u = u ++ concat (repeat u m).
Proof.
  induction m as [|m IH]; simpl.
  - now rewrite app_nil_r.
  - rewrite <- app_assoc, IH. reflexivity.
Qed.

Lemma loop_all_invalid X y d k g n idxs p :
  p X y = false ->
  (forall s, exists draw,
      fst (randint s 0 n k) = inr draw
      /\ is_Some (take_idxs X draw) /\ is_Some (take_y y draw)) ->
  forall range (ls : Locals) (st : State),
    is_data_valid (params (self st)) = Some p ->
    rng_state g st <> None ->
    exists st',
      loop X y d k g n idxs range ls st =
        (Ok (fold_left (fun l i => bind_n_trials i l) range ls), st')
      /\ calls st' =
           concat (repeat [EvIsDataValid X y; EvRandint 0 n k] (length range))
           ++ calls st
      /\ self st' = self st /\ ests st' = ests st.
Proof.
  intros Hf Hdraw range. induction range as [|i rest IH]; intros ls st Hp Hg.
  - exists st. repeat split.
  - destruct (rng_state g st) as [s|] eqn:Es; [|congruence].
    destruct (Hdraw s) as (draw & Hr & [rX HX] & [ry Hy]).
    assert (exists st1, draw_sample X y k g n st = (Ok (rX, ry), st1))
      as [st1 Hd].
    { unfold draw_sample, bind, rng_randint. rewrite Es, Hr. simpl.
      rewrite HX, Hy. simpl. eauto. }
    destruct (draw_sample_Ok _ _ _ _ _ _ _ _ Hd) as (Hc1 & Hs & He & Hg1).
    pose proof (trial_through_gate X y d k g n idxs (bind_n_trials i ls)
                  st st1 p (rX, ry) Hp Hd) as Ht.
    rewrite Hf in Ht. simpl loop. rewrite (bind_Ok _ _ _ _ _ Ht). simpl fst.
    simpl snd.
    assert (calls (with_call (EvIsDataValid X y) st1)
            = EvIsDataValid X y :: EvRandint 0 n k :: calls st) as Hc
      by (simpl; now rewrite Hc1).
    destruct (IH (bind_n_trials i ls) (with_call (EvIsDataValid X y) st1))
      as (st' & Hl & Hc' & Hs' & He').
    { simpl. simpl in Hs. now rewrite Hs. }
    { destruct g; [discriminate | exact Hg1]. }
    exists st'. split; [exact Hl|]. repeat split.
    + rewrite Hc', Hc. simpl length.
      change (EvIsDataValid X y :: EvRandint 0 n k :: calls st)
        with ([EvIsDataValid X y; EvRandint 0 n k] ++ calls st).
      rewrite app_assoc, repeat_shift. reflexivity.
    + rewrite Hs'. exact Hs.
    + rewrite He'. exact He.
Qed.

Lemma fold_bind_n_trials_mask range (ls : Locals) :
  best_inlier_mask (fold_left (fun l i => bind_n_trials i l) range ls)
  = best_inlier_mask ls.
Proof.
  revert ls. induction range as [|i rest IH]; intros ls; simpl; [reflexivity|].
  now rewrite IH.
Qed.

Lemma check_random_state_Ok seed (st st1 : State) g :
  (check_random_state seed : M rng_ref) st = (Ok g, st1) ->
  rng_state g st1 <> None
  /\ self st1 = self st /\ ests st1 = ests st /\ calls st1 = calls st.
Proof.
  destruct seed as [|z|l]; simpl.
  - intros [= <- <-]. repeat split. discriminate.
  - intros [= <- <-]. repeat split. simpl. rewrite lookup_insert_eq. discriminate.
  - destruct (gens st !! l) eqn:E; intros [= <- <-]. repeat split.
    simpl. rewrite E. discriminate.
Qed.

Lemma length_arange z : length (arange z) = Z.to_nat z.
Proof. unfold arange. now rewrite length_map, length_seq. Qed.

(** C4. When the loop ends with the best mask unset, [fit] raises the
    ValueError of line 227.  In particular, with a data-validity predicate
    that is false on the dataset, a call whose setup (lines 138-153) and
    draws succeed makes [max_trials] passes (none for a negative value),
    each a draw followed by the predicate and nothing else, leaves the
    object and the delegate as they were and raises that error. *)
Theorem no_consensus_raises X y (st : State) :
  (forall d st0 ls st1,
      resolve_estimator y st = (Ok d, st0) ->
      search_with d X y st0 = (Ok ls, st1) ->
      best_inlier_mask ls = None ->
      fit X y st =
        (Raise (ValueError "RANSAC could not find valid consensus set."), st1))
  /\ (forall p d st0 k g st1,
        is_data_valid (params (self st)) = Some p ->
        p X y = false ->
        resolve_estimator y st = (Ok d, st0) ->
        (resolve_min_n_samples X : M pynum) st0 = (Ok k, st0) ->
        (check_random_state (random_state (params (self st))) : M rng_ref) st0
          = (Ok g, st1) ->
        (forall s, exists draw,
            fst (randint s 0 (shape0 X) k) = inr draw
            /\ is_Some (take_idxs X draw) /\ is_Some (take_y y draw)) ->
        exists st',
          fit X y st =
            (Raise (ValueError "RANSAC could not find valid consensus set."),
             st')
          /\ calls st' =
               concat (repeat [EvIsDataValid X y; EvRandint 0 (shape0 X) k]
                         (Z.to_nat (max_trials (params (self st)))))
               ++ calls st
          /\ self st' = self st
          /\ ests st' = ests st0).
Proof.
  assert (forall d st0 ls st1,
      resolve_estimator y st = (Ok d, st0) ->
      search_with d X y st0 = (Ok ls, st1) ->
      best_inlier_mask ls = None ->
      fit X y st =
        (Raise (ValueError "RANSAC could not find valid consensus set."), st1))
    as Hgen.
  { intros d st0 ls st1 Hr Hs Hm. unfold fit. rewrite (bind_Ok _ _ _ _ _ Hr).
    unfold fit_with. rewrite (bind_Ok _ _ _ _ _ Hs).
    unfold finish. now rewrite Hm. }
  split; [exact Hgen|].
  intros p d st0 k g st1 Hp Hf Hr Hk Hg Hdraw.
  pose proof (resolve_estimator_same_self y st) as Hs0.
  pose proof (resolve_estimator_calls_eq y st) as Hc0.
  unfold same_self in Hs0. rewrite Hr in Hs0, Hc0. simpl in Hs0, Hc0.
  destruct (check_random_state_Ok _ _ _ _ Hg) as (Hv & Hs1 & He1 & Hc1).
  destruct (loop_all_invalid X y d k g (shape0 X) (arange (shape0 X)) p Hf Hdraw
              (arange (max_trials (params (self st)))) initial st1)
    as (st' & Hl & Hc & Hs & He).
  { now rewrite Hs1, Hs0. }
  { exact Hv. }
  exists st'. split; [|repeat split].
  - eapply (Hgen d st0 _ st' Hr).
    + unfold search_with. rewrite (bind_Ok _ _ _ _ _ Hk).
      unfold bind at 1, param at 1. simpl. rewrite Hs0.
      rewrite (bind_Ok _ _ _ _ _ Hg).
      unfold bind at 1, param at 1. simpl. rewrite Hs1, Hs0. exact Hl.
    + apply fold_bind_n_trials_mask.
  - rewrite Hc, length_arange. congruence.
  - congruence.
  - congruence.
Qed.

(** ** Two runs side by side *)

Lemma agree_bind {A B} (R : State -> State -> Prop) (ma mb : M A)
    (fa fb : A -> M B) :
  agree R ma mb -> (forall a, agree R (fa a) (fb a)) ->
  agree R (bind ma fa) (bind mb fb).
Proof.
  intros Hm Hf sa sb HR. destruct (Hm sa sb HR) as [E HR']. unfold bind.
  destruct (ma sa) as [[a|e] sa1], (mb sb) as [[b|e'] sb1]; simpl in *;
    try discriminate.
  - injection E as <-. now apply Hf.
  - injection E as <-. now split.
Qed.

Lemma agree_const {A} (R : State -> State -> Prop) (r : res CErr A) :
  agree R (fun st => (r, st)) (fun st => (r, st)).
Proof. intros sa sb HR. now split. Qed.

Lemma agree_lift_option {A} (R : State -> State -> Prop) e (o : option A) :
  agree R (lift_option e o : M A) (lift_option e o).
Proof. destruct o; apply agree_const. Qed.

Lemma agree_lift_sum {A} (R : State -> State -> Prop) (r : CErr + A) :
  agree R (lift_sum r : M A) (lift_sum r).
Proof. destruct r; apply agree_const. Qed.

Section SameView.

Variables (da db : loc) (ga gb : rng_ref).

Lemma param_agree {A} (f : Params -> A) :
  agree (same_view da db ga gb) (param f : M A) (param f).
Proof.
  intros sa sb HR. split; [|exact HR]. simpl. destruct HR as (-> & _). reflexivity.
Qed.

Lemma record_agree ev :
  agree (same_view da db ga gb) (record ev : M unit) (record ev).
Proof.
  intros sa sb (Hp & He & Hg). split; [reflexivity|].
  repeat split; try assumption; try (destruct ga, gb; exact Hg).
Qed.

Lemma deref_agree :
  agree (same_view da db ga gb) (deref da : M Est) (deref db).
Proof.
  intros sa sb HR. split; [|exact HR]. simpl. destruct HR as (_ & -> & _).
  reflexivity.
Qed.

Lemma store_agree e :
  agree (same_view da db ga gb) (store da e : M unit) (store db e).
Proof.
  intros sa sb (Hp & He & Hg). split; [reflexivity|].
  repeat split; simpl; try assumption; try (destruct ga, gb; exact Hg).
  now rewrite !lookup_insert_eq.
Qed.

Lemma rng_state_set g ev s (st : State) :
  rng_state g (with_call ev (set_rng_state g s st)) = Some s.
Proof. destruct g; simpl; [reflexivity | apply lookup_insert_eq]. Qed.

Lemma rng_randint_agree low high size :
  agree (same_view da db ga gb)
    (rng_randint ga low high size : M (list Z)) (rng_randint gb low high size).
Proof.
  intros sa sb HR. pose proof HR as (Hp & He & Hg). unfold rng_randint.
  rewrite Hg. destruct (rng_state gb sb) as [s|] eqn:Es; simpl.
  - split; [reflexivity|]. split; [|split].
    + destruct ga, gb; exact Hp.
    + destruct ga, gb; exact He.
    + now rewrite !rng_state_set.
  - split; [reflexivity | exact HR].
Qed.

Lemma set_estimator__agree :
  agree (same_view da db ga gb) (set_estimator_ da : M unit) (set_estimator_ db).
Proof.
  intros sa sb (Hp & He & Hg). split; [reflexivity|].
  repeat split; simpl; try assumption; try (destruct ga, gb; exact Hg).
Qed.

Lemma set_n_trials__agree n :
  agree (same_view da db ga gb) (set_n_trials_ n : M unit) (set_n_trials_ n).
Proof.
  intros sa sb (Hp & He & Hg). split; [reflexivity|].
  repeat split; simpl; try assumption; try (destruct ga, gb; exact Hg).
Qed.

Lemma set_inlier_mask__agree m :
  agree (same_view da db ga gb) (set_inlier_mask_ m : M unit) (set_inlier_mask_ m).
Proof.
  intros sa sb (Hp & He & Hg). split; [reflexivity|].
  repeat split; simpl; try assumption; try (destruct ga, gb; exact Hg).
Qed.

Ltac agree_step :=
  lazymatch goal with
  | |- agree _ (bind _ _) (bind _ _) => apply agree_bind; [ | intros ? ]
  | |- agree _ (ret _) (ret _) => apply agree_const
  | |- agree _ (raise _) (raise _) => apply agree_const
  | |- agree _ (param _) (param _) => apply param_agree
  | |- agree _ (record _) (record _) => apply record_agree
  | |- agree _ (deref _) (deref _) => apply deref_agree
  | |- agree _ (store _ _) (store _ _) => apply store_agree
  | |- agree _ (lift_option _ _) (lift_option _ _) => apply agree_lift_option
  | |- agree _ (lift_sum _) (lift_sum _) => apply agree_lift_sum
  | |- agree _ (rng_randint _ _ _ _) (rng_randint _ _ _ _) =>
      apply rng_randint_agree
  | |- agree _ (set_estimator_ _) (set_estimator_ _) => apply set_estimator__agree
  | |- agree _ (set_n_trials_ _) (set_n_trials_ _) => apply set_n_trials__agree
  | |- agree _ (set_inlier_mask_ _) (set_inlier_mask_ _) =>
      apply set_inlier_mask__agree
  | |- agree _ (match ?x with _ => _ end) (match ?x with _ => _ end) => destruct x
  end.

Lemma trial_agree X y k n idxs ls :
  agree (same_view da db ga gb)
    (trial X y da k ga n idxs ls : M (control * Locals))
    (trial X y db k gb n idxs ls).
Proof.
  unfold trial, consensus, evaluate, fit_and_classify, draw_sample, data_gate,
    model_gate, classify, call_fit, call_predict, call_score.
  repeat agree_step.
Qed.

Lemma loop_agree X y k n idxs range ls :
  agree (same_view da db ga gb)
    (loop X y da k ga n idxs range ls : M Locals)
    (loop X y db k gb n idxs range ls).
Proof.
  revert ls. induction range as [|i rest IH]; intros ls; simpl.
  - agree_step.
  - apply agree_bind; [apply trial_agree|]. intros r.
    destruct (fst r); first [apply IH | agree_step].
Qed.

Lemma finish_agree ls :
  agree (same_view da db ga gb) (finish da ls : M unit) (finish db ls).
Proof. unfold finish, call_fit. repeat agree_step. Qed.

End SameView.

Lemma search_with_seeded d X y (s : State) z :
  random_state (params (self s)) = RsSeed z ->
  search_with d X y s =
    match fst ((resolve_min_n_samples X : M pynum) s) with
    | Ok k =>
        bind (param max_trials)
          (fun limit =>
             loop X y d k (RngAt (fresh (dom (gens s)))) (shape0 X)
               (arange (shape0 X)) (arange limit) initial)
          (with_gens (<[fresh (dom (gens s)) := RandomState z]> (gens s)) s)
    | Raise e => (Raise e, s)
    end.
Proof.
  intros Hz. unfold search_with.
  pose proof (resolve_min_n_samples_run X s) as R. cbv zeta in R.
  destruct (fst (resolve_min_n_samples X s)) as [k|e] eqn:E.
  - rewrite (bind_Ok _ _ s k s) by (rewrite R in E |- *; simpl in E; now rewrite E).
    rewrite (bind_Ok (param random_state) _ s (RsSeed z) s)
      by (unfold param; now rewrite Hz).
    now rewrite (bind_Ok (check_random_state (RsSeed z)) _ s
                   (RngAt (fresh (dom (gens s))))
                   (with_gens (<[fresh (dom (gens s)) := RandomState z]> (gens s)) s)
                   eq_refl).
  - rewrite (bind_Raise _ _ s e s); [reflexivity|].
    rewrite R in E |- *. simpl in E. now rewrite E.
Qed.

(** From lines 145 on, two runs with the same parameters, the same seed and
    delegates in the same state do the same. *)
Lemma fit_with_agree da db X y (sa sb : State) z :
  params (self sa) = params (self sb) ->
  random_state (params (self sa)) = RsSeed z ->
  ests sa !! da = ests sb !! db ->
  fst (fit_with da X y sa) = fst (fit_with db X y sb)
  /\ (fst (fit_with da X y sa) = Ok tt ->
      exists n mask,
        self (snd (fit_with da X y sa)) = fitted (self sa) da n mask
        /\ self (snd (fit_with db X y sb)) = fitted (self sb) db n mask
        /\ ests (snd (fit_with da X y sa)) !! da
           = ests (snd (fit_with db X y sb)) !! db
        /\ ests (snd (fit_with da X y sa)) !! da <> None).
Proof.
  intros Hp Hz He.
  assert (random_state (params (self sb)) = RsSeed z) as Hz' by now rewrite <- Hp.
  pose proof (search_with_seeded da X y sa z Hz) as Ha.
  pose proof (search_with_seeded db X y sb z Hz') as Hb.
  pose proof (search_with_same_self da X y sa) as Hsa.
  pose proof (search_with_same_self db X y sb) as Hsb.
  pose proof (search_with_well_bound da X y sa) as Hwa.
  pose proof (search_with_well_bound db X y sb) as Hwb.
  unfold same_self in Hsa, Hsb.
  assert (fst ((resolve_min_n_samples X : M pynum) sa)
          = fst ((resolve_min_n_samples X : M pynum) sb)) as Hk.
  { rewrite !resolve_min_n_samples_run. simpl. now rewrite Hp. }
  rewrite Hk in Ha.
  destruct (fst (resolve_min_n_samples X sb)) as [k|e].
  2: { unfold fit_with.
       rewrite (bind_Raise _ _ _ _ _ Ha), (bind_Raise _ _ _ _ _ Hb).
       split; [reflexivity | discriminate]. }
  set (ga := RngAt (fresh (dom (gens sa)))) in *.
  set (gb := RngAt (fresh (dom (gens sb)))) in *.
  set (sa1 := with_gens _ sa) in Ha.
  set (sb1 := with_gens _ sb) in Hb.
  assert (same_view da db ga gb sa1 sb1) as HR.
  { repeat split; simpl; [exact Hp | exact He | now rewrite !lookup_insert_eq]. }
  assert (agree (same_view da db ga gb)
            (bind (param max_trials)
               (fun limit => loop X y da k ga (shape0 X) (arange (shape0 X))
                               (arange limit) initial) : M Locals)
            (bind (param max_trials)
               (fun limit => loop X y db k gb (shape0 X) (arange (shape0 X))
                               (arange limit) initial))) as Hag.
  { apply agree_bind; [apply param_agree | intros l; apply loop_agree]. }
  destruct (Hag sa1 sb1 HR) as [Hres HR2]. rewrite <- Ha, <- Hb in Hres, HR2.
  unfold fit_with.
  destruct (search_with da X y sa) as [[ls|e] sa2] eqn:Ea,
           (search_with db X y sb) as [[ls'|e'] sb2] eqn:Eb;
    simpl in Hres, HR2, Hsa, Hsb; try discriminate.
  2: { rewrite (bind_Raise _ _ _ _ _ Ea), (bind_Raise _ _ _ _ _ Eb).
       injection Hres as <-. split; [reflexivity | discriminate]. }
  injection Hres as <-.
  rewrite (bind_Ok _ _ _ _ _ Ea), (bind_Ok _ _ _ _ _ Eb).
  destruct (finish_agree da db ga gb ls sa2 sb2 HR2) as [Hfin (_ & HE3 & _)].
  split; [exact Hfin|]. intros Hok.
  destruct (finish_outcome da ls sa2 (Hwa ls eq_refl))
    as [(e & H1 & _) | (n & mask & _ & Hn & Hm & Hself & Hex)]; [congruence|].
  destruct (finish_outcome db ls sb2 (Hwb ls eq_refl))
    as [(e & H1 & _) | (n' & mask' & _ & Hn' & Hm' & Hself' & _)]; [congruence|].
  exists (n + 1), mask. rewrite Hself, Hself', Hsa, Hsb.
  replace n' with n by congruence. replace mask' with mask by congruence.
  repeat split; assumption.
Qed.

(** C8. Two runs of [fit] on the same data, with the same parameters, an
    integer seed and a configured base estimator (if any) in the same state,
    end alike whatever else the two stores hold: they return or raise the
    same, and when they return they leave the same [inlier_mask_], the same
    [n_trials_] and a fitted model in the same state.  A second run after a
    first one is such a pair of runs. *)
Theorem fit_deterministic_under_seed X y (sa sb : State) z :
  params (self sa) = params (self sb) ->
  random_state (params (self sa)) = RsSeed z ->
  (forall p, base_estimator (params (self sa)) = Some p ->
             ests sa !! p = ests sb !! p) ->
  fst (fit X y sa) = fst (fit X y sb)
  /\ (fst (fit X y sa) = Ok tt ->
      inlier_mask_ (self (snd (fit X y sa)))
        = inlier_mask_ (self (snd (fit X y sb)))
      /\ n_trials_ (self (snd (fit X y sa)))
         = n_trials_ (self (snd (fit X y sb)))
      /\ fitted_model (snd (fit X y sa)) = fitted_model (snd (fit X y sb))
      /\ fitted_model (snd (fit X y sa)) <> None).
Proof.
  intros Hp Hz Hproto.
  assert (forall da db (sa0 sb0 : State),
            params (self sa0) = params (self sb0) ->
            random_state (params (self sa0)) = RsSeed z ->
            ests sa0 !! da = ests sb0 !! db ->
            fst (fit_with da X y sa0) = fst (fit_with db X y sb0)
            /\ (fst (fit_with da X y sa0) = Ok tt ->
                inlier_mask_ (self (snd (fit_with da X y sa0)))
                  = inlier_mask_ (self (snd (fit_with db X y sb0)))
                /\ n_trials_ (self (snd (fit_with da X y sa0)))
                   = n_trials_ (self (snd (fit_with db X y sb0)))
                /\ fitted_model (snd (fit_with da X y sa0))
                   = fitted_model (snd (fit_with db X y sb0))
                /\ fitted_model (snd (fit_with da X y sa0)) <> None)) as Hwith.
  { intros da db sa0 sb0 Hp0 Hz0 He0.
    destruct (fit_with_agree da db X y sa0 sb0 z Hp0 Hz0 He0) as [Hres Hok].
    split; [exact Hres|]. intros H.
    destruct (Hok H) as (n & mask & Ha & Hb & He & Hne).
    unfold fitted_model. rewrite Ha, Hb. simpl. auto. }
  unfold fit.
  pose proof (resolve_estimator_run y sa) as Ra.
  pose proof (resolve_estimator_run y sb) as Rb.
  cbv zeta in Ra, Rb. rewrite <- Hp in Rb.
  destruct (base_estimator (params (self sa))) as [p|] eqn:Hbase.
  - rewrite <- (Hproto p eq_refl) in Rb.
    destruct (ests sa !! p) as [e|].
    + rewrite (bind_Ok _ _ _ _ _ Ra), (bind_Ok _ _ _ _ _ Rb).
      apply Hwith; simpl; [exact Hp | exact Hz | now rewrite !lookup_insert_eq].
    + rewrite (bind_Raise _ _ _ _ _ Ra), (bind_Raise _ _ _ _ _ Rb).
      split; [reflexivity | discriminate].
  - destruct (Ascii.eqb (dtype_kind y) "f").
    + rewrite (bind_Ok _ _ _ _ _ Ra), (bind_Ok _ _ _ _ _ Rb).
      apply Hwith; simpl; [exact Hp | exact Hz | now rewrite !lookup_insert_eq].
    + rewrite (bind_Raise _ _ _ _ _ Ra), (bind_Raise _ _ _ _ _ Rb).
      split; [reflexivity | discriminate].
Qed.

(** ** More on the loop body *)

Lemma np_sum_nonneg mask : 0 <= np_sum mask.
Proof. induction mask as [|[] m IH]; simpl; lia. Qed.

(** What [consensus] does with a sample that neither guard skips. *)
Lemma consensus_accepted X y d idxs (ls : Locals) mask (st : State) e iX iy s :
  fewer_inliers ls (np_sum mask) = false ->
  inlier_rows X y idxs mask = Some (iX, iy) ->
  ests st !! d = Some e ->
  est_score e iX iy = inr s ->
  same_inliers_worse_score ls (np_sum mask) s = false ->
  consensus X y d idxs ls mask st =
    (Ok (if stop_reached (params (self st)) (np_sum mask) s
         then CBreak else CNormal,
         save_best ls (np_sum mask) s mask iX iy),
     with_call (EvScore iX iy) st).
Proof.
  intros F R Hd Hs W. unfold consensus. rewrite F, R.
  unfold lift_option. rewrite (bind_Ok _ _ st (iX, iy) st eq_refl).
  rewrite (bind_Ok _ _ _ _ _ (call_score_run d iX iy e s st Hd Hs)).
  rewrite W. unfold bind, param, stop_reached. simpl.
  match goal with |- context [if ?b then _ else _] => destruct b end;
    reflexivity.
Qed.

(** Every way a call of [consensus] can return. *)
Lemma consensus_inv X y d idxs (ls : Locals) mask (st : State) c ls' :
  fst (consensus X y d idxs ls mask st) = Ok (c, ls') ->
  (c = CContinue /\ ls' = ls /\ np_sum mask <= best_n_inliers ls)
  \/ (exists e iX iy s,
        ests st !! d = Some e
        /\ inlier_rows X y idxs mask = Some (iX, iy)
        /\ est_score e iX iy = inr s
        /\ best_n_inliers ls <= np_sum mask
        /\ c = (if stop_reached (params (self st)) (np_sum mask) s
                then CBreak else CNormal)
        /\ ls' = save_best ls (np_sum mask) s mask iX iy).
Proof.
  intros H.
  destruct (fewer_inliers ls (np_sum mask)) eqn:F.
  { rewrite (consensus_fewer _ _ _ _ _ _ _ F) in H. simpl in H.
    injection H as <- <-. left. unfold fewer_inliers in F.
    apply Z.ltb_lt in F. repeat split; lia. }
  assert (best_n_inliers ls <= np_sum mask) as Hle
    by (unfold fewer_inliers in F; apply Z.ltb_ge in F; exact F).
  destruct (inlier_rows X y idxs mask) as [[iX iy]|] eqn:R.
  2: { unfold consensus in H. rewrite F, R in H. discriminate H. }
  destruct (ests st !! d) as [e|] eqn:Hd.
  2: { unfold consensus in H. rewrite F, R in H.
       unfold lift_option, bind, ret, call_score, bind, deref in H.
       rewrite Hd in H. discriminate H. }
  destruct (est_score e iX iy) as [err|s] eqn:Hs.
  { unfold consensus in H. rewrite F, R in H.
    unfold lift_option, bind, ret, call_score, bind, deref, record in H.
    rewrite Hd in H. simpl in H. rewrite Hs in H. discriminate H. }
  destruct (same_inliers_worse_score ls (np_sum mask) s) eqn:W.
  - destruct (consensus_scored X y d idxs ls mask st e iX iy s F R Hd Hs)
      as (c0 & E & _).
    rewrite E, W in H. simpl in H. injection H as <- <-. left.
    unfold same_inliers_worse_score in W. apply andb_true_iff in W.
    destruct W as [W _]. apply Z.eqb_eq in W. repeat split; lia.
  - rewrite (consensus_accepted X y d idxs ls mask st e iX iy s F R Hd Hs W)
      in H.
    simpl in H. injection H as <- <-. right. exists e, iX, iy, s.
    repeat split; assumption.
Qed.

(** X5. After a pass that evaluated a trial and returned, the best inlier
    count is the larger of the count it found and the count of the trial. *)
Theorem best_count_is_max X y d k g n idxs (ls : Locals) (st st1 : State)
    mask c ls' :
  evaluate X y d k g n st = (Ok (Some mask), st1) ->
  fst (trial X y d k g n idxs ls st) = Ok (c, ls') ->
  best_n_inliers ls' = Z.max (best_n_inliers ls) (np_sum mask).
Proof.
  intros Hev H. unfold trial in H. rewrite (bind_Ok _ _ _ _ _ Hev) in H.
  apply consensus_inv in H.
  destruct H as [(_ & -> & Hle) | (e & iX & iy & s & _ & _ & _ & Hle & _ & ->)];
    simpl; lia.
Qed.

Lemma data_gate_same_self X y :
  preserves same_self (data_gate X y : M bool).
Proof. unfold data_gate. repeat first [keep_step | apply record_same_self]. Qed.

Lemma accepted_guards (ls : Locals) n s :
  accepted ls n s = true ->
  fewer_inliers ls n = false /\ same_inliers_worse_score ls n s = false.
Proof.
  unfold accepted. intros H. apply andb_true_iff in H. destruct H as [H1 H2].
  apply negb_true_iff in H1, H2. now split.
Qed.

(** X2. A trial that is accepted ends the loop at once when it has at
    least [stop_n_inliers] inliers or a score of at least [stop_score]:
    the remaining indices are not run; otherwise the loop goes on from the
    new best state.  A [stop_n_inliers] of zero or less stops the loop at
    the first accepted trial. *)
Theorem stop_conditions X y d k g n idxs i rest (ls : Locals) (st st1 : State)
    mask e iX iy s :
  evaluate X y d k g n st = (Ok (Some mask), st1) ->
  ests st1 !! d = Some e ->
  inlier_rows X y idxs mask = Some (iX, iy) ->
  est_score e iX iy = inr s ->
  accepted (bind_n_trials i ls) (np_sum mask) s = true ->
  let ls' := save_best (bind_n_trials i ls) (np_sum mask) s mask iX iy in
  let st' := with_call (EvScore iX iy) st1 in
  loop X y d k g n idxs (i :: rest) ls st =
    (if stop_reached (params (self st)) (np_sum mask) s
     then (Ok ls', st')
     else loop X y d k g n idxs rest ls' st')
  /\ (forall z, stop_n_inliers (params (self st)) = PyInt z -> z <= 0 ->
                stop_reached (params (self st)) (np_sum mask) s = true).
Proof.
  intros Hev Hd Hrows Hs Hacc. cbv zeta.
  destruct (accepted_guards _ _ _ Hacc) as [F W].
  pose proof (evaluate_same_self X y d k g n st) as Hself.
  unfold same_self in Hself. rewrite Hev in Hself. simpl in Hself.
  split.
  - simpl loop. unfold trial at 1. rewrite bind_assoc.
    rewrite (bind_Ok _ _ _ _ _ Hev).
    rewrite (bind_Ok _ _ _ _ _
               (consensus_accepted X y d idxs (bind_n_trials i ls) mask st1
                  e iX iy s F Hrows Hd Hs W)).
    rewrite Hself.
    destruct (stop_reached (params (self st)) (np_sum mask) s); reflexivity.
  - intros z Hz Hle. unfold stop_reached, num_ge, num_compare. rewrite Hz.
    pose proof (np_sum_nonneg mask) as Hn.
    destruct (Z.compare_spec (np_sum mask) z); try reflexivity. lia.
Qed.

Lemma call_fit_run d rX ry (st : State) e :
  ests st !! d = Some e ->
  call_fit d rX ry st =
    match est_fit e rX ry with
    | inr e' => (Ok tt, with_ests (<[d := e']> (ests st)) (with_call (EvFit rX ry) st))
    | inl err => (Raise (Propagated err), with_call (EvFit rX ry) st)
    end.
Proof.
  intros Hd. unfold call_fit, bind, deref, record, store. rewrite Hd. simpl.
  destruct (est_fit e rX ry); reflexivity.
Qed.

Lemma model_gate_run d rX ry (st : State) p e :
  is_model_valid (params (self st)) = Some p ->
  ests st !! d = Some e ->
  (model_gate d rX ry : M bool) st =
    (Ok (negb (p e rX ry)), with_call (EvIsModelValid rX ry) st).
Proof.
  intros Hp Hd. unfold model_gate, bind, param, deref, record. simpl.
  rewrite Hp. simpl. now rewrite Hd.
Qed.

(** X1. When a model-validity predicate is configured, a pass that drew
    its sample, passed the data gate and fitted the delegate calls the
    predicate on the fitted delegate and on the sample, not on the whole
    dataset.  When it answers false the pass ends with a [continue]: no
    prediction and no score are asked for, the locals are as they were,
    the delegate stays fitted on the sample, and the loop goes on. *)
Theorem model_validity_gate X y d k g n idxs i rest (ls : Locals)
    (st st1 st2 : State) p sample e e' :
  is_model_valid (params (self st)) = Some p ->
  draw_sample X y k g n st = (Ok sample, st1) ->
  (data_gate X y : M bool) st1 = (Ok false, st2) ->
  ests st2 !! d = Some e ->
  est_fit e (fst sample) (snd sample) = inr e' ->
  p e' (fst sample) (snd sample) = false ->
  let st3 :=
    with_call (EvIsModelValid (fst sample) (snd sample))
      (with_ests (<[d := e']> (ests st2))
         (with_call (EvFit (fst sample) (snd sample)) st2)) in
  trial X y d k g n idxs (bind_n_trials i ls) st
    = (Ok (CContinue, bind_n_trials i ls), st3)
  /\ calls st3 = EvIsModelValid (fst sample) (snd sample)
                 :: EvFit (fst sample) (snd sample) :: calls st2
  /\ ests st3 !! d = Some e'
  /\ loop X y d k g n idxs (i :: rest) ls st
     = loop X y d k g n idxs rest (bind_n_trials i ls) st3.
Proof.
  intros Hp Hd Hg He Hfit Hf. cbv zeta.
  destruct (draw_sample_Ok _ _ _ _ _ _ _ _ Hd) as (_ & Hs1 & _).
  pose proof (data_gate_same_self X y st1) as Hs2. unfold same_self in Hs2.
  rewrite Hg in Hs2. simpl in Hs2.
  set (st3 := with_call _ (with_ests _ _)).
  assert (trial X y d k g n idxs (bind_n_trials i ls) st
          = (Ok (CContinue, bind_n_trials i ls), st3)) as Ht.
  { unfold trial, evaluate. rewrite bind_assoc, (bind_Ok _ _ _ _ _ Hd).
    rewrite bind_assoc, (bind_Ok _ _ _ _ _ Hg).
    unfold fit_and_classify. rewrite bind_assoc.
    pose proof (call_fit_run d (fst sample) (snd sample) st2 e He) as Hc.
    rewrite Hfit in Hc. rewrite (bind_Ok _ _ _ _ _ Hc).
    rewrite bind_assoc.
    assert ((model_gate d (fst sample) (snd sample) : M bool)
              (with_ests (<[d := e']> (ests st2))
                 (with_call (EvFit (fst sample) (snd sample)) st2))
            = (Ok (negb (p e' (fst sample) (snd sample))), st3)) as Hm.
    { apply model_gate_run; simpl.
      - now rewrite Hs2, Hs1.
      - apply lookup_insert_eq. }
    rewrite (bind_Ok _ _ _ _ _ Hm), Hf. reflexivity. }
  split; [exact Ht|]. split; [reflexivity|]. split.
  - simpl. apply lookup_insert_eq.
  - simpl loop. now rewrite (bind_Ok _ _ _ _ _ Ht).
Qed.

(** X6. [fit] catches nothing: when the delegate's [fit] raises on the
    sample of a pass, the loop ends with that exception and the remaining
    indices are not run; and whatever the loop raises, [fit] raises. *)
Theorem delegate_error_ends_fit X y (st : State) :
  (forall d k g n idxs i rest (ls : Locals) (s0 s1 s2 : State) sample e err,
      draw_sample X y k g n s0 = (Ok sample, s1) ->
      (data_gate X y : M bool) s1 = (Ok false, s2) ->
      ests s2 !! d = Some e ->
      est_fit e (fst sample) (snd sample) = inl err ->
      loop X y d k g n idxs (i :: rest) ls s0
        = (Raise (Propagated err),
           with_call (EvFit (fst sample) (snd sample)) s2))
  /\ (forall d st0 k g st1 err st',
        resolve_estimator y st = (Ok d, st0) ->
        (resolve_min_n_samples X : M pynum) st0 = (Ok k, st0) ->
        (check_random_state (random_state (params (self st))) : M rng_ref) st0
          = (Ok g, st1) ->
        loop X y d k g (shape0 X) (arange (shape0 X))
          (arange (max_trials (params (self st)))) initial st1
          = (Raise err, st') ->
        fit X y st = (Raise err, st')).
Proof.
  split.
  - intros d k g n idxs i rest ls s0 s1 s2 sample e err Hd Hg He Hfit.
    simpl loop. unfold trial, evaluate.
    rewrite !bind_assoc, (bind_Ok _ _ _ _ _ Hd).
    rewrite !bind_assoc, (bind_Ok _ _ _ _ _ Hg).
    unfold fit_and_classify. rewrite !bind_assoc.
    pose proof (call_fit_run d (fst sample) (snd sample) s2 e He) as Hc.
    rewrite Hfit in Hc. now rewrite (bind_Raise _ _ _ _ _ Hc).
  - intros d st0 k g st1 err st' Hr Hk Hg Hl.
    pose proof (resolve_estimator_same_self y st) as Hs0.
    unfold same_self in Hs0. rewrite Hr in Hs0. simpl in Hs0.
    destruct (check_random_state_Ok _ _ _ _ Hg) as (_ & Hs1 & _).
    unfold fit. rewrite (bind_Ok _ _ _ _ _ Hr).
    assert (search_with d X y st0 = (Raise err, st')) as Hsw.
    { unfold search_with. rewrite (bind_Ok _ _ _ _ _ Hk).
      unfold bind at 1, param at 1. simpl. rewrite Hs0.
      rewrite (bind_Ok _ _ _ _ _ Hg).
      unfold bind at 1, param at 1. simpl. rewrite Hs1, Hs0. exact Hl. }
    unfold fit_with. now rewrite (bind_Raise _ _ _ _ _ Hsw).
Qed.

(** ** The loop as a whole *)

(** [search_with] step by step. *)
Lemma search_with_unfold d X y (st0 : State) :
  search_with d X y st0 =
    match (resolve_min_n_samples X : M pynum) st0 with
    | (Raise e, _) => (Raise e, st0)
    | (Ok k, _) =>
        match (check_random_state (random_state (params (self st0))) : M rng_ref)
                st0 with
        | (Raise e, st1) => (Raise e, st1)
        | (Ok g, st1) =>
            loop X y d k g (shape0 X) (arange (shape0 X))
              (arange (max_trials (params (self st0)))) initial st1
        end
    end.
Proof.
  unfold search_with.
  pose proof (resolve_min_n_samples_run X st0) as R. cbv zeta in R.
  destruct (resolve_min_n_samples X st0) as [[k|e] sr] eqn:Ek;
    apply (f_equal snd) in R; simpl in R; subst sr.
  2: { now rewrite (bind_Raise _ _ _ _ _ Ek). }
  rewrite (bind_Ok _ _ _ _ _ Ek).
  unfold bind at 1, param at 1. simpl.
  destruct (check_random_state (random_state (params (self st0))) st0)
    as [[g|e] st1] eqn:Eg.
  - destruct (check_random_state_Ok _ _ _ _ Eg) as (_ & Hs1 & _).
    rewrite (bind_Ok _ _ _ _ _ Eg).
    unfold bind at 1, param at 1. simpl. now rewrite Hs1.
  - now rewrite (bind_Raise _ _ _ _ _ Eg).
Qed.

(** The one way [finish] returns. *)
Lemma finish_success d (ls : Locals) (st : State) :
  fst (finish d ls st) = Ok tt ->
  exists mask iX iy n e e',
    best_inlier_mask ls = Some mask
    /\ best_inlier_X ls = Some iX /\ best_inlier_y ls = Some iy
    /\ n_trials ls = Some n
    /\ ests st !! d = Some e /\ est_fit e iX iy = inr e'
    /\ snd (finish d ls st) =
         with_self (fitted (self st) d (n + 1) mask)
           (with_ests (<[d := e']> (ests st)) (with_call (EvFit iX iy) st)).
Proof.
  unfold finish. intros H.
  destruct (best_inlier_mask ls) as [mask|]; [|discriminate].
  destruct (best_inlier_X ls) as [iX|].
  2: { unfold bind, raise in H. simpl in H. discriminate. }
  destruct (best_inlier_y ls) as [iy|].
  2: { unfold bind, raise in H. simpl in H. discriminate. }
  destruct (ests st !! d) as [e|] eqn:Hd.
  2: { unfold bind at 1, call_fit, bind, deref in H. rewrite Hd in H.
       discriminate. }
  pose proof (call_fit_run d iX iy st e Hd) as Hc.
  destruct (est_fit e iX iy) as [err|e'] eqn:Hf.
  { rewrite (bind_Raise _ _ _ _ _ Hc) in H. discriminate. }
  rewrite (bind_Ok _ _ _ _ _ Hc) in H |- *.
  destruct (n_trials ls) as [n|].
  2: { unfold bind, set_estimator_, lift_option, raise in H. simpl in H.
       discriminate. }
  exists mask, iX, iy, n, e, e'. repeat split; first [assumption | reflexivity].
Qed.

Lemma count_draws_app (a b : list (@event Row)) :
  count_draws (a ++ b) = count_draws a + count_draws b.
Proof. induction a as [|ev a IH]; simpl; [reflexivity|]. rewrite IH. lia. Qed.

Lemma count_draws_quiet (l : list (@event Row)) :
  Forall (fun ev => is_draw ev = false) l -> count_draws l = 0.
Proof.
  induction 1 as [|ev l Hev _ IH]; simpl; [reflexivity|]. now rewrite Hev, IH.
Qed.

Ltac quiet_step :=
  first [ keep_step | apply record_calls; reflexivity | apply store_calls ].

(** After its draw a pass draws no more. *)
Lemma after_draw_calls X y d idxs (ls : Locals) rsample :
  preserves (calls_extend (fun ev => is_draw ev = false))
    (bind (bind (data_gate X y)
             (fun skip : bool =>
                if skip then ret None
                else fit_and_classify X y d (fst rsample) (snd rsample)))
       (fun m => match m with
                 | None => ret (CContinue, ls)
                 | Some mask => consensus X y d idxs ls mask
                 end) : M (control * Locals)).
Proof.
  unfold data_gate, fit_and_classify, consensus, model_gate, classify,
    call_fit, call_predict, call_score.
  repeat quiet_step.
Qed.

Lemma trial_keeps_n_trials X y d k g n idxs (ls : Locals) (st : State) c ls' :
  fst (trial X y d k g n idxs ls st) = Ok (c, ls') ->
  n_trials ls' = n_trials ls.
Proof.
  intros H. apply trial_result in H.
  destruct H as [-> | (s & mask & iX & iy & -> & _)]; reflexivity.
Qed.

(** A pass that returns has drawn exactly once. *)
Lemma trial_one_draw X y d k g n idxs (ls : Locals) (st : State) r :
  fst (trial X y d k g n idxs ls st) = Ok r ->
  exists new,
    calls (snd (trial X y d k g n idxs ls st)) = new ++ calls st
    /\ count_draws new = 1.
Proof.
  unfold trial, evaluate. rewrite !bind_assoc. intros H.
  destruct (draw_sample X y k g n st) as [[sample|e] st1] eqn:Hd.
  2: { rewrite (bind_Raise _ _ _ _ _ Hd) in H. discriminate. }
  rewrite (bind_Ok _ _ _ _ _ Hd) in H |- *.
  destruct (draw_sample_Ok _ _ _ _ _ _ _ _ Hd) as (Hc & _).
  destruct (after_draw_calls X y d idxs ls sample st1) as (new & E & Hq).
  exists (new ++ [EvRandint 0 n k]). split.
  - rewrite E, Hc, <- app_assoc. reflexivity.
  - rewrite count_draws_app, (count_draws_quiet _ Hq). reflexivity.
Qed.

(** A run of the loop over [a, a+1, ...] that returns has drawn once for
    every index up to the one [n_trials] is left at. *)
Lemma loop_draws X y d k g n idxs len :
  forall a (ls : Locals) (st : State) ls',
    fst (loop X y d k g n idxs (map Z.of_nat (seq a len)) ls st) = Ok ls' ->
    exists new,
      calls (snd (loop X y d k g n idxs (map Z.of_nat (seq a len)) ls st))
        = new ++ calls st
      /\ ((len = 0%nat /\ ls' = ls /\ new = [])
          \/ (exists j, n_trials ls' = Some j
                        /\ Z.of_nat a <= j < Z.of_nat (a + len)
                        /\ count_draws new = j - Z.of_nat a + 1)).
Proof.
  induction len as [|len IH]; intros a ls st ls' H.
  - simpl in H |- *. injection H as <-. exists []. split; [reflexivity|].
    left. auto.
  - simpl seq in H |- *. simpl map in H |- *. simpl loop in H |- *.
    destruct (trial X y d k g n idxs (bind_n_trials (Z.of_nat a) ls) st)
      as [[[c ls1]|e] st1] eqn:Ht.
    2: { rewrite (bind_Raise _ _ _ _ _ Ht) in H. discriminate. }
    rewrite (bind_Ok _ _ _ _ _ Ht) in H |- *. simpl fst in H |- *.
    simpl snd in H |- *.
    destruct (trial_one_draw X y d k g n idxs (bind_n_trials (Z.of_nat a) ls)
                st (c, ls1)) as (new1 & E1 & C1); [now rewrite Ht|].
    rewrite Ht in E1. simpl in E1.
    assert (n_trials ls1 = Some (Z.of_nat a)) as Hn.
    { rewrite (trial_keeps_n_trials X y d k g n idxs
                 (bind_n_trials (Z.of_nat a) ls) st c ls1);
        [reflexivity | now rewrite Ht]. }
    assert (forall new2 (ls2 : Locals) (st2 : State),
              calls st2 = new2 ++ calls st1 ->
              ((len = 0%nat /\ ls2 = ls1 /\ new2 = [])
               \/ (exists j, n_trials ls2 = Some j
                             /\ Z.of_nat (S a) <= j < Z.of_nat (S a + len)
                             /\ count_draws new2 = j - Z.of_nat (S a) + 1)) ->
              exists new,
                calls st2 = new ++ calls st
                /\ ((S len = 0%nat /\ ls2 = ls /\ new = [])
                    \/ (exists j, n_trials ls2 = Some j
                                  /\ Z.of_nat a <= j < Z.of_nat (a + S len)
                                  /\ count_draws new = j - Z.of_nat a + 1)))
      as Hcomb.
    { intros new2 ls2 st2 E2 Hcase. exists (new2 ++ new1). split.
      - rewrite E2, E1. apply app_assoc.
      - right. rewrite count_draws_app, C1.
        destruct Hcase as [(_ & -> & ->) | (j & Hj & Hr & Hc)].
        + exists (Z.of_nat a). simpl. repeat split; [exact Hn | lia | lia | lia].
        + exists j. repeat split; [exact Hj | lia | lia | lia]. }
    destruct c.
    + destruct (IH (S a) ls1 st1 ls' H) as (new2 & E2 & Hcase).
      apply (Hcomb new2 ls' _ E2 Hcase).
    + destruct (IH (S a) ls1 st1 ls' H) as (new2 & E2 & Hcase).
      apply (Hcomb new2 ls' _ E2 Hcase).
    + simpl in H. injection H as <-. simpl.
      exists new1. split; [exact E1|]. right. exists (Z.of_nat a).
      repeat split; [exact Hn | lia | lia | lia].
Qed.

(** [fit] once the delegate is there, when it returns. *)
Lemma fit_with_success d X y (st0 : State) :
  fst (fit_with d X y st0) = Ok tt ->
  exists k g st1 ls st2 mask iX iy j e e',
    (resolve_min_n_samples X : M pynum) st0 = (Ok k, st0)
    /\ (check_random_state (random_state (params (self st0))) : M rng_ref) st0
       = (Ok g, st1)
    /\ loop X y d k g (shape0 X) (arange (shape0 X))
         (arange (max_trials (params (self st0)))) initial st1 = (Ok ls, st2)
    /\ best_inlier_mask ls = Some mask
    /\ best_inlier_X ls = Some iX /\ best_inlier_y ls = Some iy
    /\ n_trials ls = Some j
    /\ ests st2 !! d = Some e /\ est_fit e iX iy = inr e'
    /\ snd (fit_with d X y st0) =
         with_self (fitted (self st2) d (j + 1) mask)
           (with_ests (<[d := e']> (ests st2)) (with_call (EvFit iX iy) st2)).
Proof.
  unfold fit_with. intros H.
  destruct (search_with d X y st0) as [[ls|err] st2] eqn:Es.
  2: { rewrite (bind_Raise _ _ _ _ _ Es) in H. discriminate. }
  rewrite (bind_Ok _ _ _ _ _ Es) in H |- *.
  destruct (finish_success d ls st2 H)
    as (mask & iX & iy & j & e & e' & Hm & HX & Hy & Hj & He & Hf & Hsnd).
  rewrite search_with_unfold in Es.
  pose proof (resolve_min_n_samples_run X st0) as R. cbv zeta in R.
  destruct (resolve_min_n_samples X st0) as [[k|err] sr] eqn:Ek;
    apply (f_equal snd) in R; simpl in R; subst sr.
  2: { discriminate. }
  destruct (check_random_state (random_state (params (self st0))) st0)
    as [[g|err] st1] eqn:Eg; [|discriminate].
  exists k, g, st1, ls, st2, mask, iX, iy, j, e, e'.
  repeat split; assumption.
Qed.

(** X3. When [fit] returns, [n_trials_] is the number of [randint] calls
    the call has made, one per pass of the loop, and it lies between 1 and
    [max_trials]. *)
Theorem n_trials_counts_draws X y (st : State) :
  fst (fit X y st) = Ok tt ->
  exists new n,
    calls (snd (fit X y st)) = new ++ calls st
    /\ n_trials_ (self (snd (fit X y st))) = Some n
    /\ count_draws new = n
    /\ 1 <= n <= max_trials (params (self st)).
Proof.
  intros H.
  destruct (fit_cases X y st) as [(e' & E) | (e0 & E)];
    [rewrite E in H; discriminate|].
  cbv zeta in E. rewrite E in H |- *.
  set (d := fresh (dom (ests st))) in *.
  set (st0 := with_ests (<[d := e0]> (ests st)) st) in *.
  destruct (fit_with_success d X y st0 H)
    as (k & g & st1 & ls & st2 & mask & iX & iy & j & e & e1
        & Hk & Hg & Hl & Hm & _ & _ & Hj & _ & _ & ->).
  destruct (check_random_state_Ok _ _ _ _ Hg) as (_ & _ & _ & Hc1).
  unfold arange in Hl.
  destruct (loop_draws X y d k g (shape0 X) (map Z.of_nat (seq 0 (Z.to_nat (shape0 X))))
              (Z.to_nat (max_trials (params (self st0)))) 0%nat initial st1 ls)
    as (new & E2 & Hcase); [now rewrite Hl|].
  rewrite Hl in E2. simpl in E2.
  destruct Hcase as [(_ & -> & _) | (j' & Hj' & Hr & Hc)];
    [simpl in Hm; discriminate|].
  assert (j' = j) as -> by congruence.
  exists (EvFit iX iy :: new), (j + 1). simpl.
  rewrite E2, Hc1. repeat split; try reflexivity; try lia.
  change (max_trials (params (self st0))) with (max_trials (params (self st))) in Hr.
  lia.
Qed.

(** ** The rows a mask selects *)

Lemma item_middle {A} (pre : list A) x suf :
  item (pre ++ x :: suf) (Z.of_nat (length pre)) = Some x.
Proof.
  unfold item. rewrite length_app. simpl length.
  destruct (Z.leb_spec 0 (Z.of_nat (length pre))); [|lia].
  destruct (Z.ltb_spec (Z.of_nat (length pre))
              (Z.of_nat (length pre + S (length suf)))); [|lia].
  simpl. rewrite Nat2Z.id, nth_error_app2 by lia.
  now rewrite Nat.sub_diag.
Qed.

(** Indexing with the indices a mask selects is selecting with the mask. *)
Lemma compress_take_from {A} (suf : list A) :
  forall pre mask idxs,
    compress (map Z.of_nat (seq (length pre) (length suf))) mask = Some idxs ->
    take_idxs (pre ++ suf) idxs = compress suf mask.
Proof.
  induction suf as [|x suf IH]; intros pre mask idxs H.
  - destruct mask; simpl in H; [|discriminate]. now injection H as <-.
  - destruct mask as [|b mask]; [discriminate|].
    simpl in H |- *.
    destruct (compress (map Z.of_nat (seq (S (length pre)) (length suf))) mask)
      as [r|] eqn:Er; [|discriminate].
    simpl in H. injection H as <-.
    specialize (IH (pre ++ [x]) mask r).
    rewrite length_app, Nat.add_1_r, <- app_assoc in IH. simpl in IH.
    rewrite <- (IH Er).
    destruct b; simpl.
    + rewrite item_middle.
      destruct (take_idxs (pre ++ x :: suf) r); reflexivity.
    + destruct (take_idxs (pre ++ x :: suf) r); reflexivity.
Qed.

Lemma compress_take {A} (a : list A) mask idxs :
  compress (arange (Z.of_nat (length a))) mask = Some idxs ->
  take_idxs a idxs = compress a mask.
Proof.
  unfold arange. rewrite Nat2Z.id. apply (compress_take_from a []).
Qed.

Lemma compress_length {A} (a : list A) :
  forall mask l,
    compress a mask = Some l ->
    length mask = length a /\ Z.of_nat (length l) = np_sum mask.
Proof.
  induction a as [|x a IH]; intros mask l H.
  - destruct mask; simpl in H; [|discriminate]. injection H as <-. now split.
  - destruct mask as [|b mask]; [discriminate|]. simpl in H.
    destruct (compress a mask) as [r|] eqn:Er; [|discriminate].
    simpl in H. injection H as <-.
    destruct (IH mask r Er) as [Hl Hn].
    split; [simpl; now rewrite Hl|].
    destruct b; simpl; lia.
Qed.

(** What the inlier rows of a mask are, on the indices [fit] uses. *)
Lemma inlier_rows_selected (X : list Row) y mask iX iy :
  inlier_rows X y (arange (shape0 X)) mask = Some (iX, iy) ->
  length mask = length X
  /\ compress X mask = Some iX
  /\ Z.of_nat (length iX) = np_sum mask
  /\ (length (values y) = length X ->
      compress (values y) mask = Some (values iy)).
Proof.
  unfold inlier_rows, shape0. intros H.
  destruct (compress (arange (Z.of_nat (length X))) mask) as [idxs|] eqn:Ec;
    [|discriminate].
  destruct (take_idxs X idxs) as [rX|] eqn:EX; [|discriminate].
  destruct (take_y y idxs) as [ry|] eqn:Ey; [|discriminate].
  injection H as <- <-.
  pose proof (compress_take X mask idxs Ec) as HX. rewrite EX in HX.
  symmetry in HX.
  destruct (compress_length X mask rX HX) as [Hl Hn].
  repeat split; try assumption.
  intros Hy. rewrite <- Hy in Ec.
    pose proof (compress_take (values y) mask idxs Ec) as HY.
    unfold take_y in Ey.
    destruct (take_idxs (values y) idxs) as [v|]; [|discriminate].
    simpl in Ey. injection Ey as <-. simpl. now symmetry.
Qed.

(** Every way a pass can return. *)
Lemma trial_inv X y d k g n idxs (ls : Locals) (st : State) c ls' :
  fst (trial X y d k g n idxs ls st) = Ok (c, ls') ->
  ls' = ls
  \/ (exists mask s iX iy,
        inlier_rows X y idxs mask = Some (iX, iy)
        /\ ls' = save_best ls (np_sum mask) s mask iX iy).
Proof.
  unfold trial. intros H. bind_inv H. destruct a as [mask|].
  - apply consensus_inv in H.
    destruct H as [(_ & -> & _) | (e & iX & iy & s & _ & Hr & _ & _ & _ & ->)].
    + now left.
    + right. now exists mask, s, iX, iy.
  - simpl in H. injection H as _ <-. now left.
Qed.

Lemma loop_consistent X y d k g n idxs range :
  forall (ls : Locals) (st : State) ls',
    best_consistent X y idxs ls ->
    fst (loop X y d k g n idxs range ls st) = Ok ls' ->
    best_consistent X y idxs ls'.
Proof.
  induction range as [|i rest IH]; intros ls st ls' Hc H; simpl in H.
  - injection H as <-. exact Hc.
  - bind_inv H. destruct a as [c ls1].
    assert (best_consistent X y idxs ls1) as Hc1.
    { assert (fst (trial X y d k g n idxs (bind_n_trials i ls) st)
              = Ok (c, ls1)) as Ht by now rewrite E.
      apply trial_inv in Ht.
      destruct Ht as [-> | (mask & s & iX & iy & Hr & ->)].
      - exact Hc.
      - intros m [= <-]. split; [reflexivity|]. now exists iX, iy. }
    destruct c; simpl in H.
    + eapply IH; eassumption.
    + eapply IH; eassumption.
    + injection H as <-. exact Hc1.
Qed.

(** X4. When [fit] returns, [inlier_mask_] has one entry per row of [X];
    the last call of [fit] is the delegate's [fit] on exactly the rows of
    [X] and [y] the mask marks, as many as it counts, and [estimator_] is
    the model that call returned. *)
Theorem final_fit_on_marked_rows X y (st : State) :
  fst (fit X y st) = Ok tt ->
  exists mask iX iy e e',
    inlier_mask_ (self (snd (fit X y st))) = Some mask
    /\ length mask = length X
    /\ inlier_rows X y (arange (shape0 X)) mask = Some (iX, iy)
    /\ compress X mask = Some iX
    /\ Z.of_nat (length iX) = np_sum mask
    /\ (length (values y) = length X ->
        compress (values y) mask = Some (values iy))
    /\ hd_error (calls (snd (fit X y st))) = Some (EvFit iX iy)
    /\ est_fit e iX iy = inr e'
    /\ fitted_model (snd (fit X y st)) = Some e'.
Proof.
  intros H.
  destruct (fit_cases X y st) as [(e' & E) | (e0 & E)];
    [rewrite E in H; discriminate|].
  cbv zeta in E. rewrite E in H |- *.
  set (d := fresh (dom (ests st))) in *.
  set (st0 := with_ests (<[d := e0]> (ests st)) st) in *.
  destruct (fit_with_success d X y st0 H)
    as (k & g & st1 & ls & st2 & mask & iX & iy & j & e & e1
        & Hk & Hg & Hl & Hm & HX & Hy & Hj & He & Hf & ->).
  assert (best_consistent X y (arange (shape0 X)) ls) as Hc.
  { eapply loop_consistent; [|rewrite Hl; reflexivity].
    intros m Hm0. simpl in Hm0. discriminate. }
  destruct (Hc mask Hm) as (_ & iX' & iy' & Hr & HX' & Hy').
  assert (iX' = iX) as -> by congruence.
  assert (iy' = iy) as -> by congruence.
  destruct (inlier_rows_selected X y mask iX iy Hr) as (H1 & H2 & H3 & H4).
  exists mask, iX, iy, e, e1. unfold fitted_model. simpl.
  rewrite lookup_insert_eq. repeat split; assumption.
Qed.

(** ** Locals that are always bound when read *)

Ltac bound_step :=
  lazymatch goal with
  | |- raises_only _ (bind _ _) => apply raises_only_bind; [ | intros ? ]
  | |- raises_only _ (raise _) =>
      apply raises_only_raise; split; discriminate
  | |- raises_only _ (lift_option _ _) =>
      apply raises_only_lift_option; split; discriminate
  | |- raises_only _ (lift_sum _) =>
      apply raises_only_lift_sum; intros ?; split; discriminate
  | |- raises_only _ (deref _) =>
      apply raises_only_deref; split; discriminate
  | |- raises_only _ (rng_randint _ _ _ _) =>
      apply raises_only_rng_randint; [ | intros ? ]; split; discriminate
  | |- raises_only _ (check_random_state _) =>
      apply raises_only_check_random_state; split; discriminate
  | |- raises_only _ (match ?x with _ => _ end) => destruct x
  | |- raises_only _ _ =>
      apply raises_only_total; intros ?; eexists; reflexivity
  end.

Lemma trial_bound X y d k g n idxs ls :
  raises_only not_from_unbound
    (trial X y d k g n idxs ls : M (control * Locals)).
Proof.
  unfold trial, consensus, evaluate, fit_and_classify, draw_sample, data_gate,
    model_gate, classify, call_fit, call_predict, call_score, not_from_unbound.
  repeat bound_step.
Qed.

Lemma loop_bound X y d k g n idxs range ls :
  raises_only not_from_unbound (loop X y d k g n idxs range ls : M Locals).
Proof.
  revert ls. induction range as [|i rest IH]; intros ls; simpl.
  - unfold not_from_unbound. bound_step.
  - apply raises_only_bind; [apply trial_bound|]. intros r.
    destruct (fst r); first [apply IH | unfold not_from_unbound; bound_step].
Qed.

Lemma search_with_bound d X y :
  raises_only not_from_unbound (search_with d X y : M Locals).
Proof.
  unfold search_with, resolve_min_n_samples.
  repeat first [apply loop_bound | unfold not_from_unbound; bound_step].
Qed.

Lemma finish_bound d (ls : Locals) (st : State) e :
  well_bound ls -> fst (finish d ls st) = Raise e -> not_from_unbound e.
Proof.
  intros W. unfold finish.
  destruct (best_inlier_mask ls) as [mask|] eqn:Hm.
  2: { simpl. intros [= <-]. split; discriminate. }
  destruct W as (Hn & HX & Hy); [rewrite Hm; discriminate|].
  destruct (best_inlier_X ls) as [iX|]; [|congruence].
  destruct (best_inlier_y ls) as [iy|]; [|congruence].
  destruct (n_trials ls) as [n|]; [|congruence].
  destruct (call_fit d iX iy st) as [[[]|e0] st1] eqn:Ec.
  - rewrite (bind_Ok _ _ _ _ _ Ec). simpl. discriminate.
  - rewrite (bind_Raise _ _ _ _ _ Ec). simpl. intros [= <-].
    assert (raises_only not_from_unbound (call_fit d iX iy : M unit)) as Hr.
    { unfold call_fit, not_from_unbound. repeat bound_step. }
    apply (Hr st). now rewrite Ec.
Qed.

Lemma fit_with_bound d X y (st : State) e :
  fst (fit_with d X y st) = Raise e -> not_from_unbound e.
Proof.
  unfold fit_with.
  pose proof (search_with_bound d X y st) as Hs.
  pose proof (search_with_well_bound d X y st) as Hw.
  destruct (search_with d X y st) as [[ls|e1] st2] eqn:Es.
  - rewrite (bind_Ok _ _ _ _ _ Es). simpl in Hw.
    apply finish_bound. now apply Hw.
  - rewrite (bind_Raise _ _ _ _ _ Es). simpl. intros [= <-].
    now apply (Hs e1).
Qed.

(** X7. Whatever [fit] raises, it is never for a local read unbound: line
    233 always finds [n_trials] bound and line 230 always finds the best
    inlier rows set, also when the loop made no pass. *)
Theorem fit_reads_bound_locals X y (st : State) e :
  fst (fit X y st) = Raise e -> e <> UnboundLocalError /\ e <> TypeError.
Proof.
  unfold fit, bind. rewrite resolve_estimator_run.
  destruct (base_estimator (params (self st))) as [p|].
  - destruct (ests st !! p) as [e0|].
    + apply fit_with_bound.
    + simpl. intros [= <-]. split; discriminate.
  - destruct (Ascii.eqb (dtype_kind y) "f").
    + apply fit_with_bound.
    + simpl. intros [= <-]. split; discriminate.
Qed.

(** ** No pass at all *)

Lemma arange_nonpositive z : z <= 0 -> arange z = [].
Proof.
  intros H. unfold arange. now replace (Z.to_nat z) with 0%nat by lia.
Qed.

Lemma check_random_state_calls_eq seed (st : State) :
  calls (snd ((check_random_state seed : M rng_ref) st)) = calls st.
Proof.
  destruct seed as [|z|l]; simpl; try reflexivity.
Qed.

(** X8. With [max_trials] zero or negative the loop makes no pass: [fit]
    makes no call and never returns; once its setup (lines 138-153) has
    succeeded it raises the ValueError of line 227. *)
Theorem nonpositive_max_trials X y (st : State) :
  max_trials (params (self st)) <= 0 ->
  (exists e, fst (fit X y st) = Raise e)
  /\ calls (snd (fit X y st)) = calls st
  /\ (forall d st0 k g st1,
        resolve_estimator y st = (Ok d, st0) ->
        (resolve_min_n_samples X : M pynum) st0 = (Ok k, st0) ->
        (check_random_state (random_state (params (self st))) : M rng_ref) st0
          = (Ok g, st1) ->
        fit X y st =
          (Raise (ValueError "RANSAC could not find valid consensus set."),
           st1)).
Proof.
  intros Hmax.
  pose proof (resolve_estimator_calls_eq y st) as Hc0.
  pose proof (resolve_estimator_same_self y st) as Hs0. unfold same_self in Hs0.
  unfold fit.
  destruct (resolve_estimator y st) as [[d|e] st0] eqn:Er; simpl in Hc0, Hs0.
  2: { rewrite (bind_Raise _ _ _ _ _ Er). simpl.
       split; [eauto | split; [exact Hc0 | discriminate]]. }
  rewrite (bind_Ok _ _ _ _ _ Er).
  assert (fit_with d X y st0 =
          match (resolve_min_n_samples X : M pynum) st0 with
          | (Raise e, _) => (Raise e, st0)
          | (Ok k, _) =>
              match (check_random_state (random_state (params (self st0)))
                       : M rng_ref) st0 with
              | (Raise e, st1) => (Raise e, st1)
              | (Ok g, st1) =>
                  (Raise (ValueError "RANSAC could not find valid consensus set."),
                   st1)
              end
          end) as Hfit.
  { unfold fit_with.
    pose proof (search_with_unfold d X y st0) as Hsw.
    rewrite Hs0, (arange_nonpositive _ Hmax) in Hsw. simpl loop in Hsw.
    rewrite Hs0.
    destruct (resolve_min_n_samples X st0) as [[k|e] sr].
    - destruct (check_random_state (random_state (params (self st))) st0)
        as [[g|e] st1].
      + now rewrite (bind_Ok _ _ _ _ _ Hsw).
      + now rewrite (bind_Raise _ _ _ _ _ Hsw).
    - now rewrite (bind_Raise _ _ _ _ _ Hsw). }
  rewrite Hfit. rewrite Hs0.
  pose proof (check_random_state_calls_eq
                (random_state (params (self st))) st0) as Hc1.
  split; [|split].
  - destruct (resolve_min_n_samples X st0) as [[k|e] sr]; [|simpl; eauto].
    destruct (check_random_state (random_state (params (self st))) st0)
      as [[g|e] st1]; simpl; eauto.
  - destruct (resolve_min_n_samples X st0) as [[k|e] sr]; [|exact Hc0].
    destruct (check_random_state (random_state (params (self st))) st0)
      as [[g|e] st1]; simpl in *; congruence.
  - intros d' st0' k g st1 [= <- <-] Hk Hg. now rewrite Hk, Hg.
Qed.

(** ** The default stop thresholds *)

Lemma SFleb_inf s : SFleb Float64.inf s = true -> s = Float64.inf.
Proof.
  unfold SFleb, Float64.inf.
  destruct s as [[]|[]| |[] m e]; simpl; try discriminate; reflexivity.
Qed.

Lemma trial_no_break X y d k g n idxs (ls : Locals) (st : State) c ls' :
  stop_n_inliers (params (self st)) = PyFloat Float64.inf ->
  stop_score (params (self st)) = Float64.inf ->
  (forall e X' y', est_score e X' y' <> inr Float64.inf) ->
  fst (trial X y d k g n idxs ls st) = Ok (c, ls') ->
  c <> CBreak.
Proof.
  intros Hn Hs Hscore H. unfold trial in H.
  pose proof (evaluate_same_self X y d k g n st) as Hself.
  unfold same_self in Hself.
  bind_inv H. rewrite E in Hself. simpl in Hself.
  destruct a as [mask|].
  - apply consensus_inv in H.
    destruct H as [(-> & _) | (e & iX & iy & s & _ & _ & Hsc & _ & -> & _)];
      [discriminate|].
    unfold stop_reached. rewrite Hself, Hn, Hs.
    destruct (SFleb Float64.inf s) eqn:Hle.
    + apply SFleb_inf in Hle. subst s. now apply Hscore in Hsc.
    + simpl. discriminate.
  - simpl in H. injection H as <- _. discriminate.
Qed.

Lemma loop_no_break X y d k g n idxs len :
  (forall e X' y', est_score e X' y' <> inr Float64.inf) ->
  forall a (ls : Locals) (st : State) ls',
    stop_n_inliers (params (self st)) = PyFloat Float64.inf ->
    stop_score (params (self st)) = Float64.inf ->
    fst (loop X y d k g n idxs (map Z.of_nat (seq a len)) ls st) = Ok ls' ->
    (len = 0%nat /\ ls' = ls)
    \/ n_trials ls' = Some (Z.of_nat (a + len) - 1).
Proof.
  intros Hscore. induction len as [|len IH]; intros a ls st ls' Hn Hs H.
  - simpl in H. injection H as <-. now left.
  - right. simpl seq in H. simpl map in H. simpl loop in H.
    pose proof (trial_same_self X y d k g n idxs
                  (bind_n_trials (Z.of_nat a) ls) st) as Hself.
    unfold same_self in Hself.
    destruct (trial X y d k g n idxs (bind_n_trials (Z.of_nat a) ls) st)
      as [[[c ls1]|e] st1] eqn:Ht.
    2: { rewrite (bind_Raise _ _ _ _ _ Ht) in H. discriminate. }
    rewrite (bind_Ok _ _ _ _ _ Ht) in H. simpl in H, Hself.
    assert (c <> CBreak) as Hc.
    { eapply trial_no_break; [exact Hn | exact Hs | exact Hscore |].
      rewrite Ht. reflexivity. }
    assert (n_trials ls1 = Some (Z.of_nat a)) as Hn1.
    { rewrite (trial_keeps_n_trials X y d k g n idxs
                 (bind_n_trials (Z.of_nat a) ls) st c ls1);
        [reflexivity | now rewrite Ht]. }
    assert (fst (loop X y d k g n idxs (map Z.of_nat (seq (S a) len)) ls1 st1)
            = Ok ls') as Hrest by (destruct c; [exact H | exact H | congruence]).
    destruct (IH (S a) ls1 st1 ls') as [(-> & ->) | Hj];
      [now rewrite Hself | now rewrite Hself | exact Hrest | |].
    + rewrite Hn1. f_equal. lia.
    + rewrite Hj. f_equal. lia.
Qed.

(** X12. With [stop_n_inliers] and [stop_score] left at their defaults
    (both infinite) and a delegate whose score is never +inf, the loop
    never stops early: when [fit] returns, [n_trials_] is [max_trials]. *)
Theorem default_stops_run_all_trials X y (st : State) :
  stop_n_inliers (params (self st)) = stop_n_inliers (@default_params Est Row) ->
  stop_score (params (self st)) = stop_score (@default_params Est Row) ->
  (forall e X' y', est_score e X' y' <> inr Float64.inf) ->
  fst (fit X y st) = Ok tt ->
  n_trials_ (self (snd (fit X y st))) = Some (max_trials (params (self st))).
Proof.
  intros Hn Hs Hscore H. simpl in Hn, Hs.
  destruct (fit_cases X y st) as [(e' & E) | (e0 & E)];
    [rewrite E in H; discriminate|].
  cbv zeta in E. rewrite E in H |- *.
  set (d := fresh (dom (ests st))) in *.
  set (st0 := with_ests (<[d := e0]> (ests st)) st) in *.
  destruct (fit_with_success d X y st0 H)
    as (k & g & st1 & ls & st2 & mask & iX & iy & j & e & e1
        & Hk & Hg & Hl & Hm & _ & _ & Hj & _ & _ & ->).
  destruct (check_random_state_Ok _ _ _ _ Hg) as (_ & Hs1 & _).
  unfold arange in Hl.
  destruct (loop_no_break X y d k g (shape0 X)
              (map Z.of_nat (seq 0 (Z.to_nat (shape0 X))))
              (Z.to_nat (max_trials (params (self st0)))) Hscore
              0%nat initial st1 ls) as [(_ & ->) | Hlast].
  - now rewrite Hs1.
  - now rewrite Hs1.
  - now rewrite Hl.
  - simpl in Hm. discriminate.
  - simpl. f_equal.
    change (max_trials (params (self st0)))
      with (max_trials (params (self st))) in Hlast.
    rewrite Hj in Hlast. injection Hlast as ->.
    destruct (Z.to_nat (max_trials (params (self st)))) eqn:En.
    + exfalso. unfold arange in *. simpl in Hl.
      change (max_trials (params (self st0)))
        with (max_trials (params (self st))) in Hl.
      rewrite En in Hl. simpl in Hl. injection Hl as <- _.
      simpl in Hm. discriminate.
    + lia.
Qed.

(** ** The default threshold *)

Lemma below_inf_finite r : SFltb (SFabs r) Float64.inf = Float64.is_finite r.
Proof. destruct r as [[]|[]| |[] m e]; reflexivity. Qed.

Lemma np_sum_all_true (l : list spec_float) :
  forallb Float64.is_finite l = true ->
  np_sum (map Float64.is_finite l) = Z.of_nat (length l).
Proof.
  induction l as [|r l IH]; simpl; [reflexivity|].
  intros H. apply andb_true_iff in H. destruct H as [Hr Hl].
  rewrite Hr, (IH Hl). lia.
Qed.

(** X11. With [residual_threshold] left at its default, +inf, a row is an
    inlier exactly when the difference between its prediction and its
    target is finite (not infinite, not NaN); when all differences are
    finite every row is an inlier. *)
Theorem infinite_threshold X y d (st : State) e predicted diff :
  residual_threshold (params (self st))
    = residual_threshold (@default_params Est Row) ->
  ests st !! d = Some e ->
  est_predict e X = inr predicted ->
  np_sub predicted (values y) = Some diff ->
  classify X y d st =
    (Ok (map Float64.is_finite diff), with_call (EvPredict X) st)
  /\ (forallb Float64.is_finite diff = true ->
      np_sum (map Float64.is_finite diff) = Z.of_nat (length diff)).
Proof.
  intros Ht Hd Hp Hs. simpl in Ht. split; [|apply np_sum_all_true].
  unfold classify, call_predict, bind, deref, record, param, lift_option.
  rewrite Hd. simpl. rewrite Hp. simpl. rewrite Hs. simpl. rewrite Ht.
  rewrite map_map. unfold ret. f_equal. f_equal.
  apply map_ext. apply below_inf_finite.
Qed.

(** ** [predict] and [score] *)

Lemma fit_raise_same_self X y (st : State) e :
  fst (fit X y st) = Raise e -> self (snd (fit X y st)) = self st.
Proof.
  destruct (fit_cases X y st) as [(e' & ->) | (e0 & ->)]; [reflexivity|].
  match goal with |- context [fit_with ?d X y ?s] =>
    destruct (fit_with_outcome d X y s)
      as [(e1 & H1 & H2) | (n & mask & H1 & H2 & H3)] end.
  - intros _. exact H2.
  - congruence.
Qed.

(** X9. On an object as [__init__] leaves it, [predict] and [score] raise
    the AttributeError of the missing [estimator_], and they still do
    after a call of [fit] that raised. *)
Theorem predict_needs_fit X y X' y' (st : State) p :
  self st = __init__ p ->
  fst (predict X' st) = inl (AttributeError "estimator_")
  /\ fst (score X' y' st) = inl (AttributeError "estimator_")
  /\ (forall e,
        fst (fit X y st) = Raise e ->
        fst (predict X' (snd (fit X y st))) = inl (AttributeError "estimator_")
        /\ fst (score X' y' (snd (fit X y st)))
           = inl (AttributeError "estimator_")).
Proof.
  intros Hnew.
  assert (forall s : State, self s = __init__ p ->
            fst (predict X' s) = inl (AttributeError "estimator_")
            /\ fst (score X' y' s) = inl (AttributeError "estimator_")) as Hraw.
  { intros s Hs. unfold predict, score. rewrite Hs. simpl. now split. }
  destruct (Hraw st Hnew) as [H1 H2].
  split; [exact H1 | split; [exact H2|]].
  intros e He. apply Hraw. rewrite (fit_raise_same_self X y st e He).
  exact Hnew.
Qed.

(** X10. After a call of [fit] that returned, [predict] and [score] never
    raise an AttributeError: they return what the fitted model returns, or
    raise what it raises, and change nothing but the log of calls. *)
Theorem predict_after_fit X y (st : State) :
  fst (fit X y st) = Ok tt ->
  exists m,
    fitted_model (snd (fit X y st)) = Some m
    /\ forall X' y',
         predict X' (snd (fit X y st)) =
           (match est_predict m X' with
            | inr v => inr v
            | inl c => inl (Raised (Propagated c))
            end, with_call (EvPredict X') (snd (fit X y st)))
         /\ score X' y' (snd (fit X y st)) =
              (match est_score m X' y' with
               | inr v => inr v
               | inl c => inl (Raised (Propagated c))
               end, with_call (EvScore X' y') (snd (fit X y st))).
Proof.
  intros H.
  destruct (fit_cases X y st) as [(e' & E) | (e0 & E)];
    [rewrite E in H; discriminate|].
  cbv zeta in E. rewrite E in H |- *.
  match goal with |- context [fit_with ?d X y ?s] =>
    destruct (fit_with_outcome d X y s)
      as [(e1 & H1 & _) | (n & mask & _ & Hself & Hex)];
    [congruence|];
    set (st' := snd (fit_with d X y s)) in *;
    set (dd := d) in *
  end.
  destruct (ests st' !! dd) as [m|] eqn:Hm; [|congruence].
  exists m. unfold fitted_model. rewrite Hself. simpl. split; [exact Hm|].
  intros X' y'. unfold predict, score. rewrite Hself. simpl.
  unfold call_predict, call_score, bind, deref, record. rewrite Hm. simpl.
  split.
  - destruct (est_predict m X'); reflexivity.
  - destruct (est_score m X' y'); reflexivity.
Qed.

(** ** One generator *)

#[local] Instance rngs_outside_refl g :
  Reflexive (rngs_outside g : State -> State -> Prop).
Proof. intros st r _. reflexivity. Qed.

#[local] Instance rngs_outside_trans g :
  Transitive (rngs_outside g : State -> State -> Prop).
Proof. intros a b c Hab Hbc r Hr. rewrite (Hbc r Hr). apply (Hab r Hr). Qed.

Lemma rngs_outside_same g (st st' : State) :
  gens st' = gens st -> np_random st' = np_random st -> rngs_outside g st st'.
Proof. intros Hg Hn [|l] _; simpl; [now rewrite Hn | now rewrite Hg]. Qed.

Lemma record_rngs g ev : preserves (rngs_outside g) (record ev : M unit).
Proof. intros st. now apply rngs_outside_same. Qed.

Lemma store_rngs g d e : preserves (rngs_outside g) (store d e : M unit).
Proof. intros st. now apply rngs_outside_same. Qed.

Lemma set_estimator__rngs g d :
  preserves (rngs_outside g) (set_estimator_ d : M unit).
Proof. intros st. now apply rngs_outside_same. Qed.

Lemma set_n_trials__rngs g n :
  preserves (rngs_outside g) (set_n_trials_ n : M unit).
Proof. intros st. now apply rngs_outside_same. Qed.

Lemma set_inlier_mask__rngs g m :
  preserves (rngs_outside g) (set_inlier_mask_ m : M unit).
Proof. intros st. now apply rngs_outside_same. Qed.

Lemma rng_randint_rngs g low high size :
  preserves (rngs_outside g) (rng_randint g low high size : M (list Z)).
Proof.
  intros st r Hr. unfold rng_randint.
  destruct (rng_state g st); [|reflexivity]. simpl.
  destruct g as [|l], r as [|l']; simpl; try reflexivity; try congruence.
  apply lookup_insert_ne. congruence.
Qed.

Ltac rngs_step g :=
  first [ keep_step | apply (record_rngs g) | apply (store_rngs g)
        | apply (rng_randint_rngs g) | apply (set_estimator__rngs g)
        | apply (set_n_trials__rngs g) | apply (set_inlier_mask__rngs g) ].

Lemma trial_rngs X y d k g n idxs ls :
  preserves (rngs_outside g) (trial X y d k g n idxs ls : M (control * Locals)).
Proof.
  unfold trial, consensus, evaluate, fit_and_classify, draw_sample, data_gate,
    model_gate, classify, call_fit, call_predict, call_score.
  repeat rngs_step g.
Qed.

Lemma loop_rngs X y d k g n idxs range ls :
  preserves (rngs_outside g) (loop X y d k g n idxs range ls : M Locals).
Proof.
  revert ls. induction range as [|i rest IH]; intros ls; simpl.
  - keep_step.
  - repeat first [keep_step | apply trial_rngs | apply IH].
Qed.

Lemma finish_rngs g d ls :
  preserves (rngs_outside g) (finish d ls : M unit).
Proof. unfold finish, call_fit. repeat rngs_step g. Qed.

Lemma check_random_state_drawn seed (st st1 : State) g :
  (check_random_state seed : M rng_ref) st = (Ok g, st1) ->
  g = drawn_from seed st /\ rngs_outside g st st1.
Proof.
  destruct seed as [|z|l]; simpl.
  - intros [= <- <-]. split; reflexivity.
  - intros [= <- <-]. split; [reflexivity|].
    intros [|l'] Hr; simpl; [reflexivity|].
    apply lookup_insert_ne. congruence.
  - destruct (gens st !! l); intros [= <- <-]. split; reflexivity.
Qed.

Lemma fit_with_rngs d X y (st0 : State) :
  rngs_outside (drawn_from (random_state (params (self st0))) st0) st0
    (snd (fit_with d X y st0)).
Proof.
  unfold fit_with.
  pose proof (search_with_unfold d X y st0) as Hsw.
  destruct (resolve_min_n_samples X st0) as [[k|e] sr].
  2: { rewrite (bind_Raise _ _ _ _ _ Hsw). reflexivity. }
  destruct (check_random_state (random_state (params (self st0))) st0)
    as [[g|e] st1] eqn:Eg.
  2: { rewrite (bind_Raise _ _ _ _ _ Hsw). simpl.
       apply rngs_outside_same; destruct (random_state (params (self st0)));
         simpl in Eg; try discriminate;
         destruct (gens st0 !! g); now injection Eg as _ <-. }
  destruct (check_random_state_drawn _ _ _ _ Eg) as [<- Hout].
  transitivity st1; [exact Hout|].
  assert (preserves (rngs_outside g)
            (bind (loop X y d k g (shape0 X) (arange (shape0 X))
                     (arange (max_trials (params (self st0)))) initial)
               (finish d) : M unit)) as Hp.
  { apply preserves_bind; [exact _ | apply loop_rngs |].
    intros ls. apply finish_rngs. }
  specialize (Hp st1). unfold bind in Hp |- *. rewrite Hsw.
  exact Hp.
Qed.

(** X13. [fit] advances one generator only: numpy's global one when
    [random_state] is None, a generator of its own when it is a seed, the
    configured one when it is a generator.  With a seed the global
    generator and every generator object that existed are left as they
    were. *)
Theorem fit_draws_from_one_generator X y (st : State) :
  rngs_outside (drawn_from (random_state (params (self st))) st) st
    (snd (fit X y st))
  /\ (forall z, random_state (params (self st)) = RsSeed z ->
        np_random (snd (fit X y st)) = np_random st
        /\ forall l s, gens st !! l = Some s ->
                       gens (snd (fit X y st)) !! l = Some s).
Proof.
  assert (rngs_outside (drawn_from (random_state (params (self st))) st) st
            (snd (fit X y st))) as Hout.
  { destruct (fit_cases X y st) as [(e' & ->) | (e0 & ->)]; [reflexivity|].
    cbv zeta.
    match goal with |- context [fit_with ?d X y ?s] =>
      pose proof (fit_with_rngs d X y s) as H end.
    intros r Hr. rewrite (H r Hr). destruct r; reflexivity. }
  split; [exact Hout|]. intros z Hz. rewrite Hz in Hout. simpl in Hout. split.
  - assert (GlobalRng <> RngAt (fresh (dom (gens st)))) as Hg by discriminate.
    pose proof (Hout GlobalRng Hg) as H. simpl in H. congruence.
  - intros l s Hl. rewrite <- Hl. apply (Hout (RngAt l)).
    intros [= ->]. pose proof (is_fresh (dom (gens st))) as Hf.
    apply Hf. apply elem_of_dom. eauto.
Qed.

(** ** A call that raises after one that returned *)

Lemma fit_frame X y (st : State) l e :
  ests st !! l = Some e -> ests (snd (fit X y st)) !! l = Some e.
Proof.
  intros Hl.
  destruct (fit_cases X y st) as [(e' & ->) | (e0 & ->)]; [exact Hl|].
  assert (l <> fresh (dom (ests st))) as Hne
    by (intros ->; rewrite fresh_free in Hl; discriminate).
  rewrite (fit_with_ests_outside _ X y _ l Hne). simpl.
  now rewrite lookup_insert_ne.
Qed.

(** X14. A call of [fit] that raises on an object fitted before leaves the
    earlier model in place: [estimator_] still refers to it, it is in the
    state it was in, and [predict] and [score] answer as before. *)
Theorem failed_refit_keeps_model X y (st : State) m e :
  fitted_model st = Some m ->
  fst (fit X y st) = Raise e ->
  fitted_model (snd (fit X y st)) = Some m
  /\ forall X' y',
       fst (predict X' (snd (fit X y st))) = fst (predict X' st)
       /\ fst (score X' y' (snd (fit X y st))) = fst (score X' y' st).
Proof.
  intros Hm He.
  pose proof (fit_raise_same_self X y st e He) as Hs.
  unfold fitted_model in *. rewrite Hs.
  destruct (estimator_ (self st)) as [d|] eqn:Hd; [|discriminate].
  pose proof (fit_frame X y st d m Hm) as Hf.
  split; [exact Hf|].
  intros X' y'. unfold predict, score. rewrite Hs, Hd.
  unfold call_predict, call_score, bind, deref, record. rewrite Hf, Hm.
  simpl. split; [destruct (est_predict m X') | destruct (est_score m X' y')];
    reflexivity.
Qed.

(** ** A trial that is not scored *)

Lemma classify_Ok X y d (st st' : State) mask :
  classify X y d st = (Ok mask, st') -> st' = with_call (EvPredict X) st.
Proof.
  unfold classify, call_predict, bind, deref, record, param, lift_option.
  destruct (ests st !! d); simpl; [|discriminate].
  destruct (est_predict _ X); simpl; [discriminate|].
  destruct (np_sub _ _); simpl; [|discriminate].
  now intros [= _ <-].
Qed.

Lemma evaluate_ends_with_predict X y d k g n (st st1 : State) mask :
  evaluate X y d k g n st = (Ok (Some mask), st1) ->
  hd_error (calls st1) = Some (EvPredict X).
Proof.
  unfold evaluate. intros H.
  bind_inv H. bind_inv H.
  match type of H with
  | context [if ?b then _ else _] => destruct b
  end; [discriminate H|].
  unfold fit_and_classify in H.
  bind_inv H. bind_inv H.
  match type of H with
  | context [if ?b then _ else _] => destruct b
  end; [discriminate H|].
  bind_inv H. injection H as _ <-.
  match goal with
  | E : classify _ _ _ _ = _ |- _ => apply classify_Ok in E; now subst
  end.
Qed.

(** X15. A trial with fewer inliers than the best is dropped without being
    scored: the pass ends with a [continue] in the state the evaluation
    left, whose last call is the delegate's [predict] on the whole of [X],
    and the locals are as they were. *)
Theorem fewer_inliers_not_scored X y d k g n idxs (ls : Locals)
    (st st1 : State) mask :
  evaluate X y d k g n st = (Ok (Some mask), st1) ->
  np_sum mask < best_n_inliers ls ->
  trial X y d k g n idxs ls st = (Ok (CContinue, ls), st1)
  /\ hd_error (calls st1) = Some (EvPredict X).
Proof.
  intros Hev Hlt. split.
  - unfold trial. rewrite (bind_Ok _ _ _ _ _ Hev).
    apply consensus_fewer. unfold fewer_inliers. now apply Z.ltb_lt.
  - eapply evaluate_ends_with_predict. exact Hev.
Qed.

End Proofs.

(** * Runs on the small instance *)

Module Runs.

Import Demo.

Lemma item_in_range {A} (a : list A) i :
  0 <= i < Z.of_nat (length a) -> is_Some (item a i).
Proof.
  intros H. unfold item.
  destruct (Z.leb_spec 0 i); [|lia]. destruct (Z.ltb_spec i (Z.of_nat (length a))); [|lia].
  simpl. destruct (nth_error a (Z.to_nat i)) eqn:E; [eauto|].
  apply nth_error_None in E. lia.
Qed.

Lemma lcg_draws_in_range s :
  exists draw,
    fst (randint s 0 (shape0 X5) (PyInt 2)) = inr draw
    /\ is_Some (take_idxs X5 draw) /\ is_Some (take_y y5 draw).
Proof.
  eexists. split; [reflexivity|].
  set (a := (lcg_next s / 65536) mod (5 - 0)).
  set (b := (lcg_next (lcg_next s) / 65536) mod (5 - 0)).
  assert (0 <= a < 5) as Ha by (apply Z.mod_pos_bound; lia).
  assert (0 <= b < 5) as Hb by (apply Z.mod_pos_bound; lia).
  assert (forall A (l : list A), length l = 5%nat ->
            is_Some (take_idxs l [0 + a; 0 + b])) as H.
  { intros A l Hl. simpl.
    destruct (item_in_range l (0 + a)) as [x ->]; [rewrite Hl; lia|].
    destruct (item_in_range l (0 + b)) as [x' ->]; [rewrite Hl; lia|]. eauto. }
  split.
  - apply (H Z X5). reflexivity.
  - unfold take_y.
    destruct (H spec_float (values y5) eq_refl) as [v Hv].
    change (take_idxs (values y5) _) with (take_idxs (values y5) [0 + a; 0 + b]).
    rewrite Hv. simpl. eauto.
Qed.

Example fraction_of_five :
  np_ceil (num_mul_int (PyFloat half) (shape0 X5)) = Float64.of_int 3.
Proof. reflexivity. Qed.

Example ceil_of_minus_half : Float64.ceil (SFopp half) = S754_zero true.
Proof. reflexivity. Qed.

(** Under [plain] the three passes find 1, 4 and 4 inliers; the last one
    ties with the second on count and score and replaces it. *)
Example fit_plain :
  fst (fit X5 y5 (world plain 1)) = Ok tt
  /\ inlier_mask_ (self (snd (fit X5 y5 (world plain 1)))) = Some mask5
  /\ n_trials_ (self (snd (fit X5 y5 (world plain 1)))) = Some 3
  /\ fitted_model (snd (fit X5 y5 (world plain 1))) = Some fitted5.
Proof. repeat split; reflexivity. Qed.

(** Under [strict] every pass has no inlier and the finite score 0.0: each
    is skipped against the initial best state, and [fit] finds nothing. *)
Example fit_strict :
  fst (trial X5 y5 0%nat (PyInt 2) GlobalRng 5 (arange 5) initial
         (ready strict 1)) = Ok (CContinue, initial)
  /\ hd_error (calls (snd (trial X5 y5 0%nat (PyInt 2) GlobalRng 5 (arange 5)
                            initial (ready strict 1))))
     = Some (EvScore [] (mk_ndarray "f" []))
  /\ fst (fit X5 y5 (world strict 1))
     = Raise (ValueError "RANSAC could not find valid consensus set.").
Proof. repeat split; reflexivity. Qed.

(** A predicate that holds of a two-row sample and not of the five rows:
    called on the whole dataset it skips every pass. *)
Example gate_sees_whole_dataset :
  fst (fit X5 y5
         (world (config None (PyInt 2) half (RsSeed 7)
                   (Some (fun X _ => (length X =? 2)%nat))) 1))
  = Raise (ValueError "RANSAC could not find valid consensus set.").
Proof. reflexivity. Qed.


(** C2 as amended, on a trial with one inlier and the score -0.5. *)
Lemma initial_acceptance_run : accepted (@initial Z) 1 (SFopp half) = true.
Proof. apply (initial_acceptance 1 (SFopp half)). left. lia. Defined.

(** C2 as stated fails for a trial with no inlier and the finite score 0.0
    (see [fit_strict] for such a trial). *)
Lemma zero_inliers_finite_score_skipped :
  ~ (forall n s, 0 <= n -> Float64.is_finite s = true ->
                 accepted (@initial Z) n s = true).
Proof.
  intros H. specialize (H 0 (Float64.of_int 0) ltac:(lia) eq_refl).
  discriminate H.
Qed.

(** C3 on the first pass under [gated]. *)
Lemma data_validity_gate_run :
  let st := ready gated 1 in
  let st1 := snd (draw_sample X5 y5 (PyInt 2) GlobalRng 5 st) in
  let st2 := with_call (EvIsDataValid X5 y5) st1 in
  calls st2 = EvIsDataValid X5 y5 :: EvRandint 0 5 (PyInt 2) :: calls st
  /\ calls_extend (fun _ => True) st2
       (snd (trial X5 y5 0%nat (PyInt 2) GlobalRng 5 (arange 5)
               (bind_n_trials 0 initial) st))
  /\ (always_false X5 y5 = false ->
      trial X5 y5 0%nat (PyInt 2) GlobalRng 5 (arange 5)
        (bind_n_trials 0 initial) st
        = (Ok (CContinue, bind_n_trials 0 initial), st2)
      /\ ests st2 = ests st /\ self st2 = self st
      /\ loop X5 y5 0%nat (PyInt 2) GlobalRng 5 (arange 5) (0 :: [1; 2]) initial st
         = loop X5 y5 0%nat (PyInt 2) GlobalRng 5 (arange 5) [1; 2]
             (bind_n_trials 0 initial) st2).
Proof.
  apply (data_validity_gate X5 y5 0%nat (PyInt 2) GlobalRng 5 (arange 5) 0 [1; 2]
           initial (ready gated 1)
           (snd (draw_sample X5 y5 (PyInt 2) GlobalRng 5 (ready gated 1)))
           always_false
           ([3; 3], mk_ndarray "f" (map Float64.of_int [1; 1]))).
  - reflexivity.
  - apply injective_projections; reflexivity.
Defined.

(** C4 on [fit] under [gated]. *)
Lemma no_consensus_raises_run :
  exists st',
    fit X5 y5 (world gated 1) =
      (Raise (ValueError "RANSAC could not find valid consensus set."), st')
    /\ calls st' =
         concat (repeat [EvIsDataValid X5 y5; EvRandint 0 (shape0 X5) (PyInt 2)]
                   (Z.to_nat (max_trials (params (self (world gated 1))))))
         ++ calls (world gated 1)
    /\ self st' = self (world gated 1)
    /\ ests st' = ests (ready gated 1).
Proof.
  apply (proj2 (no_consensus_raises X5 y5 (world gated 1))
           always_false 0%nat (ready gated 1) (PyInt 2) (RngAt 0%nat)
           (with_gens (<[0%nat := RandomState 7]> ∅) (ready gated 1))).
  - reflexivity.
  - reflexivity.
  - reflexivity.
  - reflexivity.
  - reflexivity.
  - exact lcg_draws_in_range.
Defined.


(** C6 under [seeded]: the configured estimator at address 3 is cloned. *)
Lemma estimator_resolved_run :
  let st := shop seeded 1 in
  let d := fresh (dom (ests st)) in
  d <> 3%nat
  /\ fit X5 y5 st =
       fit_with d X5 y5
         (with_ests (<[d := copy_params {| level := Some half |}]> (ests st)) st).
Proof.
  apply (proj2 (proj2 (proj2 (proj2 (estimator_resolved X5 y5 (shop seeded 1)))))
           3%nat {| level := Some half |}); reflexivity.
Defined.

(** C7 on the three passes under [plain]. *)
Lemma best_n_inliers_never_decreases_run :
  fst (loop X5 y5 0%nat (PyInt 2) GlobalRng 5 (arange 5) (arange 3) initial
         (ready plain 1)) = Ok locals3
  /\ best_n_inliers (@initial Z) <= best_n_inliers locals3.
Proof.
  split; [reflexivity|].
  apply (proj2 (best_n_inliers_never_decreases X5 y5 0%nat (PyInt 2) GlobalRng 5
                  (arange 5))
           (arange 3) initial (ready plain 1) locals3).
  reflexivity.
Defined.

(** C8 on the same configuration in two different stores. *)
Lemma fit_deterministic_under_seed_run :
  fst (fit X5 y5 (shop seeded 1)) = fst (fit X5 y5 (busy_shop seeded 99))
  /\ (fst (fit X5 y5 (shop seeded 1)) = Ok tt ->
      inlier_mask_ (self (snd (fit X5 y5 (shop seeded 1))))
        = inlier_mask_ (self (snd (fit X5 y5 (busy_shop seeded 99))))
      /\ n_trials_ (self (snd (fit X5 y5 (shop seeded 1))))
         = n_trials_ (self (snd (fit X5 y5 (busy_shop seeded 99))))
      /\ fitted_model (snd (fit X5 y5 (shop seeded 1)))
         = fitted_model (snd (fit X5 y5 (busy_shop seeded 99)))
      /\ fitted_model (snd (fit X5 y5 (shop seeded 1))) <> None).
Proof.
  apply (fit_deterministic_under_seed X5 y5 (shop seeded 1)
           (busy_shop seeded 99) 7).
  - reflexivity.
  - reflexivity.
  - intros p [= <-]. reflexivity.
Defined.


(** C10 on [fit] under [gated], which raises. *)
Lemma failed_fit_assigns_nothing_run :
  fst (fit X5 y5 (world gated 1))
    = Raise (ValueError "RANSAC could not find valid consensus set.")
  /\ self (snd (fit X5 y5 (world gated 1))) = self (world gated 1).
Proof.
  split; [reflexivity|].
  apply (proj1 (failed_fit_assigns_nothing X5 y5 (world gated 1))
           (ValueError "RANSAC could not find valid consensus set.")).
  reflexivity.
Defined.

End Runs.

(** * More runs on the small instance *)

Module MoreRuns.

Import Demo Cases.

(** X1 on the first pass under [picky]. *)
Lemma model_validity_gate_run :
  let st := ready picky 1 in
  let st1 := snd (draw_sample X5 y5 (PyInt 2) GlobalRng 5 st) in
  let sample := ([3; 3], mk_ndarray "f" (map Float64.of_int [1; 1])) in
  let st3 :=
    with_call (EvIsModelValid (fst sample) (snd sample))
      (with_ests (<[0%nat := fitted5]> (ests st1))
         (with_call (EvFit (fst sample) (snd sample)) st1)) in
  trial X5 y5 0%nat (PyInt 2) GlobalRng 5 (arange 5) (bind_n_trials 0 initial) st
    = (Ok (CContinue, bind_n_trials 0 initial), st3)
  /\ calls st3 = EvIsModelValid (fst sample) (snd sample)
                 :: EvFit (fst sample) (snd sample) :: calls st1
  /\ ests st3 !! 0%nat = Some fitted5
  /\ loop X5 y5 0%nat (PyInt 2) GlobalRng 5 (arange 5) (0 :: [1; 2]) initial st
     = loop X5 y5 0%nat (PyInt 2) GlobalRng 5 (arange 5) [1; 2]
         (bind_n_trials 0 initial) st3.
Proof.
  apply (model_validity_gate X5 y5 0%nat (PyInt 2) GlobalRng 5 (arange 5) 0
           [1; 2] initial (ready picky 1)
           (snd (draw_sample X5 y5 (PyInt 2) GlobalRng 5 (ready picky 1)))
           (snd (draw_sample X5 y5 (PyInt 2) GlobalRng 5 (ready picky 1)))
           (fun _ _ _ => false)
           ([3; 3], mk_ndarray "f" (map Float64.of_int [1; 1]))
           LinearRegression fitted5).
  - reflexivity.
  - apply injective_projections; reflexivity.
  - reflexivity.
  - reflexivity.
  - reflexivity.
  - reflexivity.
Defined.

(** X2 on the first pass under [eager], which stops there. *)
Lemma stop_conditions_run :
  let st := ready eager 1 in
  let st1 := snd (evaluate X5 y5 0%nat (PyInt 2) GlobalRng 5 st) in
  let ls' := save_best (bind_n_trials 0 initial) (np_sum mask5)
               (Float64.of_int 4) mask5 inlier_X5 inlier_y5 in
  let st' := with_call (EvScore inlier_X5 inlier_y5) st1 in
  loop X5 y5 0%nat (PyInt 2) GlobalRng 5 (arange 5) (0 :: [1; 2]) initial st =
    (if stop_reached (params (self st)) (np_sum mask5) (Float64.of_int 4)
     then (Ok ls', st')
     else loop X5 y5 0%nat (PyInt 2) GlobalRng 5 (arange 5) [1; 2] ls' st')
  /\ (forall z, stop_n_inliers (params (self st)) = PyInt z -> z <= 0 ->
                stop_reached (params (self st)) (np_sum mask5)
                  (Float64.of_int 4) = true).
Proof.
  apply (stop_conditions X5 y5 0%nat (PyInt 2) GlobalRng 5 (arange 5) 0 [1; 2]
           initial (ready eager 1)
           (snd (evaluate X5 y5 0%nat (PyInt 2) GlobalRng 5 (ready eager 1)))
           mask5 fitted5 inlier_X5 inlier_y5 (Float64.of_int 4)).
  - apply injective_projections; reflexivity.
  - reflexivity.
  - reflexivity.
  - reflexivity.
  - reflexivity.
Defined.

(** Under [eager] one pass is made where [plain] makes three. *)
Example fit_eager :
  n_trials_ (self (snd (fit X5 y5 (world eager 1)))) = Some 1
  /\ n_trials_ (self (snd (fit X5 y5 (world plain 1)))) = Some 3.
Proof. split; reflexivity. Qed.

(** X3 on [fit] under [plain]. *)
Lemma n_trials_counts_draws_run :
  exists new n,
    calls (snd (fit X5 y5 (world plain 1))) = new ++ calls (world plain 1)
    /\ n_trials_ (self (snd (fit X5 y5 (world plain 1)))) = Some n
    /\ count_draws new = n
    /\ 1 <= n <= max_trials (params (self (world plain 1))).
Proof.
  apply (n_trials_counts_draws X5 y5 (world plain 1)). reflexivity.
Defined.

(** X4 on [fit] under [plain]. *)
Lemma final_fit_on_marked_rows_run :
  exists mask iX iy e e',
    inlier_mask_ (self (snd (fit X5 y5 (world plain 1)))) = Some mask
    /\ length mask = length X5
    /\ inlier_rows X5 y5 (arange (shape0 X5)) mask = Some (iX, iy)
    /\ compress X5 mask = Some iX
    /\ Z.of_nat (length iX) = np_sum mask
    /\ (length (values y5) = length X5 ->
        compress (values y5) mask = Some (values iy))
    /\ hd_error (calls (snd (fit X5 y5 (world plain 1)))) = Some (EvFit iX iy)
    /\ est_fit e iX iy = inr e'
    /\ fitted_model (snd (fit X5 y5 (world plain 1))) = Some e'.
Proof.
  apply (final_fit_on_marked_rows X5 y5 (world plain 1)). reflexivity.
Defined.

(** X5 on the first pass under [plain]. *)
Lemma best_count_is_max_run :
  best_n_inliers (save_best (@initial Z) 4 (Float64.of_int 4) mask5 inlier_X5
                    inlier_y5)
  = Z.max (best_n_inliers (@initial Z)) (np_sum mask5).
Proof.
  apply (best_count_is_max X5 y5 0%nat (PyInt 2) GlobalRng 5 (arange 5) initial
           (ready plain 1)
           (snd (evaluate X5 y5 0%nat (PyInt 2) GlobalRng 5 (ready plain 1)))
           mask5 CNormal).
  - apply injective_projections; reflexivity.
  - reflexivity.
Defined.

(** X6: an empty sample, which the delegate refuses, and an empty dataset,
    on which the generator refuses to draw. *)
Lemma delegate_error_ends_fit_run :
  loop X5 y5 0%nat (PyInt 0) GlobalRng 5 (arange 5) (0 :: [1; 2]) initial
    (ready plain 1)
  = (Raise (Propagated EmptySample),
     with_call (EvFit [] y0)
       (snd (draw_sample X5 y5 (PyInt 0) GlobalRng 5 (ready plain 1))))
  /\ fit [] y0 (world plain 1)
     = (Raise (Propagated LowNotBelowHigh),
        snd (loop [] y0 0%nat (PyInt 2) GlobalRng 0 [] (arange 3) initial
               (ready plain 1))).
Proof.
  split.
  - apply (proj1 (delegate_error_ends_fit X5 y5 (world plain 1))
             0%nat (PyInt 0) GlobalRng 5 (arange 5) 0 [1; 2] initial
             (ready plain 1)
             (snd (draw_sample X5 y5 (PyInt 0) GlobalRng 5 (ready plain 1)))
             (snd (draw_sample X5 y5 (PyInt 0) GlobalRng 5 (ready plain 1)))
             ([], y0) LinearRegression EmptySample).
    + apply injective_projections; reflexivity.
    + reflexivity.
    + reflexivity.
    + reflexivity.
  - apply (proj2 (delegate_error_ends_fit [] y0 (world plain 1))
             0%nat (ready plain 1) (PyInt 2) GlobalRng (ready plain 1)
             (Propagated LowNotBelowHigh)).
    + reflexivity.
    + reflexivity.
    + reflexivity.
    + apply injective_projections; reflexivity.
Defined.

(** X7 on [fit] under [gated], which raises. *)
Lemma fit_reads_bound_locals_run :
  ValueError "RANSAC could not find valid consensus set."
    <> (UnboundLocalError : exn err)
  /\ ValueError "RANSAC could not find valid consensus set."
     <> (TypeError : exn err).
Proof.
  apply (fit_reads_bound_locals X5 y5 (world gated 1)). reflexivity.
Defined.

(** X8 on [fit] under [idle]. *)
Lemma nonpositive_max_trials_run :
  (exists e, fst (fit X5 y5 (world idle 1)) = Raise e)
  /\ calls (snd (fit X5 y5 (world idle 1))) = calls (world idle 1)
  /\ (forall d st0 k g st1,
        resolve_estimator y5 (world idle 1) = (Ok d, st0) ->
        resolve_min_n_samples (CErr := err) X5 st0 = (Ok k, st0) ->
        check_random_state (CErr := err)
          (random_state (params (self (world idle 1)))) st0 = (Ok g, st1) ->
        fit X5 y5 (world idle 1) =
          (Raise (ValueError "RANSAC could not find valid consensus set."),
           st1)).
Proof.
  apply (nonpositive_max_trials X5 y5 (world idle 1)). simpl. lia.
Defined.

(** X9 on a new object configured as [gated]. *)
Lemma predict_needs_fit_run :
  fst (predict X5 (world gated 1)) = inl (AttributeError "estimator_")
  /\ fst (score X5 y5 (world gated 1)) = inl (AttributeError "estimator_")
  /\ (forall e,
        fst (fit X5 y5 (world gated 1)) = Raise e ->
        fst (predict X5 (snd (fit X5 y5 (world gated 1))))
          = inl (AttributeError "estimator_")
        /\ fst (score X5 y5 (snd (fit X5 y5 (world gated 1))))
           = inl (AttributeError "estimator_")).
Proof.
  apply (predict_needs_fit X5 y5 X5 y5 (world gated 1) gated). reflexivity.
Defined.

(** X10 on [fit] under [plain]. *)
Lemma predict_after_fit_run :
  exists m,
    fitted_model (snd (fit X5 y5 (world plain 1))) = Some m
    /\ forall X' y',
         predict X' (snd (fit X5 y5 (world plain 1))) =
           (match est_predict m X' with
            | inr v => inr v
            | inl c => inl (Raised (Propagated c))
            end, with_call (EvPredict X') (snd (fit X5 y5 (world plain 1))))
         /\ score X' y' (snd (fit X5 y5 (world plain 1))) =
              (match est_score m X' y' with
               | inr v => inr v
               | inl c => inl (Raised (Propagated c))
               end, with_call (EvScore X' y') (snd (fit X5 y5 (world plain 1)))).
Proof.
  apply (predict_after_fit X5 y5 (world plain 1)). reflexivity.
Defined.

(** After [fit] under [plain] the model predicts the level 1.0. *)
Example predict_plain :
  fst (predict [7; 8] (snd (fit X5 y5 (world plain 1))))
  = inr [Float64.of_int 1; Float64.of_int 1].
Proof. reflexivity. Qed.

(** X11 under [lenient]: the target 9.0 is eight away from the level 1.0
    and still an inlier. *)
Lemma infinite_threshold_run :
  let diff := [S754_zero false; S754_zero false; S754_zero false;
               S754_zero false; S754_finite true 4503599627370496 (-49)] in
  classify X5 y5 0%nat (warmed lenient 1) =
    (Ok (map Float64.is_finite diff), with_call (EvPredict X5) (warmed lenient 1))
  /\ (forallb Float64.is_finite diff = true ->
      np_sum (map Float64.is_finite diff) = Z.of_nat (length diff)).
Proof.
  apply (infinite_threshold X5 y5 0%nat (warmed lenient 1) fitted5
           (map (fun _ => Float64.of_int 1) X5)); reflexivity.
Defined.

(** X12 under [brief], with a delegate that always scores 0.5. *)
Lemma default_stops_run_all_trials_run :
  n_trials_ (self (snd (fit X5 y5 (flat_world brief 1)))) = Some 3.
Proof.
  apply (default_stops_run_all_trials X5 y5 (flat_world brief 1)).
  - reflexivity.
  - reflexivity.
  - intros e X' y'. simpl. destruct (flat_level e); discriminate.
  - reflexivity.
Defined.

(** X13 under [seeded], in a store with a generator object at address 0. *)
Lemma fit_draws_from_one_generator_run :
  np_random (snd (fit X5 y5 (busy_shop seeded 1))) = 1
  /\ gens (snd (fit X5 y5 (busy_shop seeded 1))) !! 0%nat = Some 42.
Proof.
  destruct (proj2 (fit_draws_from_one_generator X5 y5 (busy_shop seeded 1))
              7 eq_refl) as [Hn Hg].
  split; [exact Hn | apply (Hg 0%nat 42); reflexivity].
Defined.

(** Under [plain], with no seed, the global generator is the one advanced. *)
Example fit_plain_advances_global :
  np_random (snd (fit X5 y5 (world plain 1))) <> 1.
Proof. vm_compute. discriminate. Qed.

(** X14: [fit] under [plain], then a call on an empty dataset, which
    raises. *)
Lemma failed_refit_keeps_model_run :
  let st1 := snd (fit X5 y5 (world plain 1)) in
  fitted_model (snd (fit [] y0 st1)) = Some fitted5
  /\ forall X' y',
       fst (predict X' (snd (fit [] y0 st1))) = fst (predict X' st1)
       /\ fst (score X' y' (snd (fit [] y0 st1))) = fst (score X' y' st1).
Proof.
  apply (failed_refit_keeps_model [] y0 (snd (fit X5 y5 (world plain 1)))
           fitted5 (Propagated LowNotBelowHigh)); reflexivity.
Defined.

(** X15 on the first pass under [plain], against a best of five inliers. *)
Lemma fewer_inliers_not_scored_run :
  let ls := save_best (bind_n_trials 0 initial) 5 (Float64.of_int 4)
              [true; true; true; true; true] X5 y5 in
  let st1 := snd (evaluate X5 y5 0%nat (PyInt 2) GlobalRng 5 (ready plain 1)) in
  trial X5 y5 0%nat (PyInt 2) GlobalRng 5 (arange 5) ls (ready plain 1)
    = (Ok (CContinue, ls), st1)
  /\ hd_error (calls st1) = Some (EvPredict X5).
Proof.
  apply (fewer_inliers_not_scored X5 y5 0%nat (PyInt 2) GlobalRng 5 (arange 5)
           (save_best (bind_n_trials 0 initial) 5 (Float64.of_int 4)
              [true; true; true; true; true] X5 y5)
           (ready plain 1)
           (snd (evaluate X5 y5 0%nat (PyInt 2) GlobalRng 5 (ready plain 1)))
           mask5).
  - apply injective_projections; reflexivity.
  - reflexivity.
Defined.

End MoreRuns.
